(** * The worker's job manager (services/worker/src/worker/job_manager.py)

    A shallow embedding of [JobManager]: the pre/compute/post life cycle of
    one job, the translation of failures into cache entries, the recovery
    entry points for crashed and overlong jobs, and the call of the backfill
    planner after every job.

    Python exceptions are values of type [exn]; a method is a function from
    the cache store to a [Run]: its outcome (a value or a raised exception),
    the cache store it leaves, and the calls it made on its collaborators, in
    order.  Values of [exn] stand for instances of Python's [Exception];
    interpreter signals that derive from [BaseException] only
    (KeyboardInterrupt, SystemExit) end the worker process and are left out.
    Logging calls and the [updated_at] timestamp of a cache entry are left out
    as well.

    The exceptions of a run are those of the job runner's three methods
    (any exception, by any of them), those of the serialiser, those of the
    backfill call, and those job_manager.py raises itself.  The cache store
    is libcommon code that is not under src/: it is modelled from the spec
    as a finite map with total reads and writes. *)

From Stdlib Require Import ZArith QArith.QArith_base List.
From stdpp Require Import base decidable option countable strings list gmap fin_maps pretty.

Local Open Scope Z_scope.
Local Open Scope string_scope.
Local Open Scope list_scope.

(** ** Data model *)

(** JSON-serialisable values ([Mapping[str, Any]] in the source). *)
#[local] Unset Elimination Schemes.
Inductive Json : Type :=
| JNull
| JBool (b : bool)
| JInt (n : Z)
| JStr (s : string)
| JList (items : list Json)
| JDict (fields : list (string * Json)).
#[local] Set Elimination Schemes.

(** [libcommon.utils.JobParams]: the target of a computation. *)
Record JobParams : Type := mkJobParams {
  dataset : string;
  revision : string;
  config : option string;
  split : option string }.

#[global] Instance JobParams_eq_dec : EqDecision JobParams.
Proof. solve_decision. Defined.

#[global] Instance JobParams_countable : Countable JobParams.
Proof.
  refine (inj_countable'
    (fun p => (dataset p, revision p, config p, split p))
    (fun t => match t with (d, r, c, s) => mkJobParams d r c s end) _).
  intros []; reflexivity.
Defined.

(** [libcommon.utils.Priority]. *)
Inductive Priority : Type := HIGH | NORMAL | LOW.

(** [libcommon.utils.JobInfo]. *)
Record JobInfo : Type := mkJobInfo {
  job_id : string;
  type : string;
  params : JobParams;
  priority : Priority }.

(** [HTTPStatus.OK]. *)
Definition HTTPStatus_OK : Z := 200.

(** A cache entry, with the fields [upsert_response_params] receives.
    [error_code], [details] and [progress] are the keyword arguments the
    error paths leave out ([None]). *)
Record CacheEntry : Type := mkCacheEntry {
  content : Json;
  http_status : Z;
  error_code : option string;
  details : option Json;
  job_runner_version : Z;
  dataset_git_revision : string;
  progress : option Q }.

(** What [get_response_without_content_params] returns: the entry without
    its content. *)
Record CacheEntryWithoutContent : Type := mkWithoutContent {
  wc_http_status : Z;
  wc_error_code : option string;
  wc_job_runner_version : Z;
  wc_dataset_git_revision : string;
  wc_progress : option Q }.

Definition without_content (e : CacheEntry) : CacheEntryWithoutContent :=
  {| wc_http_status := http_status e;
     wc_error_code := error_code e;
     wc_job_runner_version := job_runner_version e;
     wc_dataset_git_revision := dataset_git_revision e;
     wc_progress := progress e |}.

(** Modelled from the spec: libcommon.simple_cache is not under src/.  The
    Cache Store holds at most one entry per key (artifact kind, dataset,
    revision, config, split); a write replaces the entry of its key, a
    missing entry means "never computed". *)
Abbreviation Cache := (gmap (string * JobParams) CacheEntry).

(** ** Exceptions *)

(** The exception classes the job manager tells apart.  [CustomError] is
    the common base of libcommon's domain errors, with its [code],
    [status_code], message and optional cause; [OtherException] is any
    exception outside that hierarchy. *)
#[local] Unset Elimination Schemes.
Inductive exn : Type :=
| DatasetNotFoundError (message : string)
| CachedArtifactError (message : string) (kind : string) (dataset : string)
    (config : option string) (split : option string)
    (cache_entry_with_details : CacheEntry)
| DoesNotExist (message : string)
| Custom (e : CustomError)
| OtherException (message : string)
with CustomError : Type :=
| mkCustomError (code : string) (status_code : Z) (message : string)
    (cause : option exn).
#[local] Set Elimination Schemes.

Definition code (e : CustomError) : string :=
  match e with mkCustomError c _ _ _ => c end.
Definition status_code (e : CustomError) : Z :=
  match e with mkCustomError _ s _ _ => s end.
Definition message (e : CustomError) : string :=
  match e with mkCustomError _ _ m _ => m end.
Definition cause (e : CustomError) : option exn :=
  match e with mkCustomError _ _ _ c => c end.

(** [str(err)]. *)
Definition str (e : exn) : string :=
  match e with
  | DatasetNotFoundError m | CachedArtifactError m _ _ _ _ _ | DoesNotExist m
  | OtherException m => m
  | Custom e => message e
  end.

(** The mapping a [details] field holds ([None] and non-mappings have no
    key). *)
Definition details_fields (d : option Json) : list (string * Json) :=
  match d with
  | Some (JDict fields) => fields
  | _ => []
  end.

Definition optional_string (o : option string) : Json :=
  match o with
  | Some s => JStr s
  | None => JNull
  end.

(** The identification of the artifact an entry was copied from. *)
Definition copied_from_artifact (kind dataset : string)
  (config split : option string) : Json :=
  JDict [("kind", JStr kind); ("dataset", JStr dataset);
         ("config", optional_string config); ("split", optional_string split)].

(** Modelled from the spec: [CachedArtifactError.enhanced_details]
    (libcommon.simple_cache is not under src/).  The details of the cached
    entry with one entry more, "copied_from_artifact", that identifies the
    artifact the entry belongs to, as the comment in [process] says. *)
Definition enhanced_details (kind dataset : string)
  (config split : option string) (cache_entry_with_details : CacheEntry)
  : Json :=
  JDict (List.filter
           (fun kv => negb (String.eqb (fst kv) "copied_from_artifact"))
           (details_fields (details cache_entry_with_details))
         ++ [("copied_from_artifact",
              copied_from_artifact kind dataset config split)]).

Inductive outcome (A : Type) : Type :=
| Ret (a : A)
| Raise (e : exn).
Arguments Ret {A} a.
Arguments Raise {A} e.

(** ** Processing graph and backfill requests *)

(** The fan-out level of a step (spec section 4.2). *)
Inductive InputType : Type := DatasetLevel | ConfigLevel | SplitLevel.

(** [libcommon.processing_graph.ProcessingStep]. *)
Record ProcessingStep : Type := mkProcessingStep {
  step_name : string;
  step_job_type : string;
  cache_kind : string;
  step_job_runner_version : Z;
  input_type : InputType;
  parents : list string }.

Abbreviation ProcessingGraph := (list ProcessingStep).

(** A unit of work handed to the external scheduler. *)
Record JobRequest : Type := mkJobRequest {
  request_params : JobParams;
  request_step : string;
  request_priority : Priority }.

(** The arguments of the [DatasetState(...)] call in [JobManager.backfill]. *)
Record DatasetState : Type := mkDatasetState {
  ds_dataset : string;
  ds_revision : string;
  ds_processing_graph : ProcessingGraph;
  ds_error_codes_to_retry : list string;
  ds_priority : Priority }.

(** ** Runs: outcome, cache store and calls *)

(** The calls the job manager makes on its collaborators. *)
Inductive Event : Type :=
| CallPreCompute
| CallCompute
| CallPostCompute
| CallGetResponse (kind : string) (p : JobParams)
| CallUpsert (kind : string) (p : JobParams) (entry : CacheEntry)
| CallBackfill (state : DatasetState) (requests : list JobRequest).

Record Run (A : Type) : Type := mkRun {
  out : outcome A;
  store : Cache;
  calls : list Event }.
Arguments mkRun {A} out store calls.
Arguments out {A} r.
Arguments store {A} r.
Arguments calls {A} r.

Definition M (A : Type) : Type := Cache -> Run A.

Definition ret {A} (a : A) : M A := fun c => mkRun (Ret a) c [].

Definition raise {A} (e : exn) : M A := fun c => mkRun (Raise e) c [].

Definition bind {A B} (m : M A) (k : A -> M B) : M B := fun c =>
  let r := m c in
  match out r with
  | Ret a => let r' := k a (store r) in
             mkRun (out r') (store r') (calls r ++ calls r')
  | Raise e => mkRun (Raise e) (store r) (calls r)
  end.

(** A call on a collaborator whose outcome is [o]. *)
Definition call {A} (ev : Event) (o : Cache -> outcome A) : M A :=
  fun c => mkRun (o c) c [ev].

(** [try: body finally: fin].  The [finally] block always runs; an
    exception it raises replaces the outcome of the body. *)
Definition try_finally {A} (body : M A) (fin : M unit) : M A := fun c =>
  let r := body c in
  let r' := fin (store r) in
  match out r' with
  | Ret _ => mkRun (out r) (store r') (calls r ++ calls r')
  | Raise e => mkRun (Raise e) (store r') (calls r ++ calls r')
  end.

(** [try: body except ...: handler].  [handler e = None] when no [except]
    clause matches [e]. *)
Definition try_except {A} (body : M A) (handler : exn -> option (M A)) : M A :=
  fun c =>
  let r := body c in
  match out r with
  | Ret a => r
  | Raise e =>
      match handler e with
      | Some h => let r' := h (store r) in
                  mkRun (out r') (store r') (calls r ++ calls r')
      | None => r
      end
  end.

Declare Scope eff_scope.
Delimit Scope eff_scope with eff.
Notation "'do' x <- m ; k" := (bind m (fun x => k))
  (at level 10, x name, m at level 100, k at level 200) : eff_scope.
Notation "m ;; k" := (bind m (fun _ => k))
  (at level 100, k at level 200, right associativity) : eff_scope.

(** ** Collaborators *)

(** What [JobRunner.compute] returns. *)
Record JobResult : Type := mkJobResult {
  result_content : Json;
  result_progress : Q }.

(** What [get_parallel_job_runner] returns when the step has a parallel
    counterpart. *)
Record ParallelJobRunner : Type := mkParallel {
  parallel_job_type : string;
  parallel_job_runner_version : Z }.

(** The interface of [worker.job_runner.JobRunner].  The three hooks are
    external code: each is given by its outcome, which may depend on the
    cache store it reads. *)
Record JobRunner : Type := mkJobRunner {
  processing_step : ProcessingStep;
  get_job_type : string;
  get_job_runner_version : Z;
  get_parallel_job_runner : option ParallelJobRunner;
  pre_compute : Cache -> outcome unit;
  compute : Cache -> outcome JobResult;
  post_compute : Cache -> outcome unit }.

Record WorkerConfig : Type := mkWorkerConfig {
  content_max_bytes : Z }.

(** The attributes [__init__] sets. *)
Record JobManager : Type := mkJobManager {
  job_info : JobInfo;
  worker_config : WorkerConfig;
  job_runner : JobRunner;
  processing_graph : ProcessingGraph }.

Definition job_params (jm : JobManager) : JobParams := params (job_info jm).
Definition job_type (jm : JobManager) : string := type (job_info jm).

(** [setup]: the two [ValueError] checks of the constructor, with their
    messages. *)
Definition setup (jm : JobManager) : outcome unit :=
  let job_type' := get_job_type (job_runner jm) in
  if negb (String.eqb (step_job_type (processing_step (job_runner jm))) job_type')
  then Raise (OtherException
         ("The processing step's job type is "
          +:+ step_job_type (processing_step (job_runner jm))
          +:+ ", but the job manager only" +:+ " processes " +:+ job_type'))
  else if negb (String.eqb (job_type jm) job_type')
  then Raise (OtherException
         ("The submitted job type is " +:+ job_type jm
          +:+ ", but the job manager only processes " +:+ job_type'))
  else Ret tt.

(** The parts of libcommon that job_manager.py calls and that are not under
    src/, taken as parameters: the JSON serialiser, which returns the bytes
    or raises; the two renderings of a [CustomError]; the HTTP status of each
    error class (by class name); the configs and splits the planner finds
    for a dataset revision; the targets whose staleness the planner cannot
    determine; and the exception the [DatasetState(...).backfill()] call
    raises, if it raises one. *)
Record Libcommon : Type := mkLibcommon {
  orjson_dumps : Json -> outcome string;
  as_response : CustomError -> Json;
  as_response_with_cause : CustomError -> Json;
  class_status : string -> Z;
  dataset_layout : Cache -> string -> string -> list (string * list string);
  staleness_undetermined : Cache -> ProcessingStep -> JobParams -> bool;
  backfill_fault : DatasetState -> Cache -> option exn }.

(** List of error codes that should trigger a retry. *)
Definition ERROR_CODES_TO_RETRY : list string := ["ClientConnectionError"].

Section JobManager.

Variable lib : Libcommon.

Local Open Scope eff_scope.

(** *** Error classes of libcommon.exceptions *)

(** Modelled from the spec: libcommon.exceptions is not under src/.  Every
    error kind derives from the common base and carries a stable code, an
    HTTP-like status, a message and an optional cause (spec section 9).  The
    code of a class is its name, as for the one code the source spells out
    ("ClientConnectionError"); the statuses are parameters. *)
Definition error_class (name : string) (message : string) (cause : option exn)
  : CustomError :=
  mkCustomError name (class_status lib name) message cause.

Definition ResponseAlreadyComputedError (message : string) : CustomError :=
  error_class "ResponseAlreadyComputedError" message None.
Definition TooBigContentError (message : string) : CustomError :=
  error_class "TooBigContentError" message None.
Definition UnexpectedError (message : string) (cause : exn) : CustomError :=
  error_class "UnexpectedError" message (Some cause).
Definition JobManagerCrashedError (message : string) (cause : option exn)
  : CustomError :=
  error_class "JobManagerCrashedError" message cause.
Definition JobManagerExceededMaximumDurationError (message : string)
  (cause : option exn) : CustomError :=
  error_class "JobManagerExceededMaximumDurationError" message cause.

(** *** Cache store *)

(** [get_response_without_content_params]: raises [DoesNotExist] when the
    key has no entry. *)
Definition get_response_without_content_params (kind : string)
  (job_params : JobParams) : M CacheEntryWithoutContent :=
  call (CallGetResponse kind job_params) (fun c =>
    match c !! (kind, job_params) with
    | Some e => Ret (without_content e)
    | None => Raise (DoesNotExist "DoesNotExist")
    end).

(** [upsert_response_params]: the entry replaces the one of its key. *)
Definition upsert_response_params (kind : string) (job_params : JobParams)
  (content : Json) (http_status : Z) (error_code : option string)
  (details : option Json) (job_runner_version : Z)
  (dataset_git_revision : string) (progress : option Q) : M unit :=
  fun c =>
  let e := mkCacheEntry content http_status error_code details
             job_runner_version dataset_git_revision progress in
  mkRun (Ret tt) (<[(kind, job_params) := e]> c) [CallUpsert kind job_params e].

(** *** Backfill planner *)

(** [progress == 1.0]. *)
Definition progress_is_complete (p : option Q) : bool :=
  match p with
  | Some q => Qeq_bool q 1
  | None => false
  end.

(** [progress < 1.0]. *)
Definition progress_is_partial (p : option Q) : bool :=
  match p with
  | Some q => negb (Qle_bool 1 q)
  | None => false
  end.

(** Modelled from the spec: libcommon.state is not under src/.  Spec
    section 4.2 classifies an artifact as missing, stale by revision, stale
    by version, retryable error or partial progress (a job is requested),
    or as fresh or non-retryable error (no action). *)
Definition is_required (error_codes_to_retry : list string)
  (step : ProcessingStep) (revision : string) (entry : option CacheEntry)
  : bool :=
  match entry with
  | None => true
  | Some e =>
      if negb (String.eqb (dataset_git_revision e) revision) then true
      else if (job_runner_version e <? step_job_runner_version step)%Z then true
      else if (http_status e =? HTTPStatus_OK)%Z then progress_is_partial (progress e)
      else match error_code e with
           | Some c => bool_decide (c ∈ error_codes_to_retry)
           | None => false
           end
  end.

(** Modelled from the spec: the (config, split) combinations of a step, by
    its fan-out level: once globally, once per config, or once per split. *)
Definition targets (layout : list (string * list string)) (level : InputType)
  : list (option string * option string) :=
  match level with
  | DatasetLevel => [(None, None)]
  | ConfigLevel => List.map (fun cs => (Some (fst cs), None)) layout
  | SplitLevel =>
      List.flat_map (fun cs =>
        List.map (fun s => (Some (fst cs), Some s)) (snd cs)) layout
  end.

(** Modelled from the spec: the job requests the planner emits for a dataset
    revision, from the cache store and the processing graph.  A target whose
    staleness cannot be determined is logged and skipped (spec section 7). *)
Definition plan (state : DatasetState) (c : Cache) : list JobRequest :=
  let layout := dataset_layout lib c (ds_dataset state) (ds_revision state) in
  List.flat_map (fun step =>
    List.flat_map (fun t =>
      let p := mkJobParams (ds_dataset state) (ds_revision state) (fst t) (snd t) in
      if staleness_undetermined lib c step p then []
      else if is_required (ds_error_codes_to_retry state) step (ds_revision state)
                (c !! (cache_kind step, p))
      then [mkJobRequest p (step_name step) (ds_priority state)]
      else [])
      (targets layout (input_type step)))
    (ds_processing_graph state).

(** Modelled from the spec: [DatasetState(...).backfill()] plans the
    requests for the external scheduler and writes nothing to the cache
    store.  Like any call it may raise: [backfill_fault] gives the exception
    (how many of the planned requests reached the scheduler before it is not
    modelled). *)
Definition DatasetState_backfill (state : DatasetState) : M unit := fun c =>
  mkRun (match backfill_fault lib state c with
         | Some e => Raise e
         | None => Ret tt
         end)
        c [CallBackfill state (plan state c)].

(** *** JobManager *)

(** [raise_if_parallel_response_exists]. *)
Definition raise_if_parallel_response_exists (jm : JobManager)
  (parallel_cache_kind : string) (parallel_job_version : Z) : M unit :=
  try_except
    (do existing_response <-
       get_response_without_content_params parallel_cache_kind (job_params jm);
     if (wc_http_status existing_response =? HTTPStatus_OK)%Z
        && (wc_job_runner_version existing_response =? parallel_job_version)%Z
        && progress_is_complete (wc_progress existing_response)
        && String.eqb (wc_dataset_git_revision existing_response)
             (revision (job_params jm))
     then raise (Custom (ResponseAlreadyComputedError
            ("Response has already been computed and stored in cache kind: "
             +:+ parallel_cache_kind +:+ ". Compute will be skipped.")))
     else ret tt)
    (fun e => match e with
              | DoesNotExist _ => Some (ret tt)
              | _ => None
              end).

(** The statement [if parallel_job_runner: ...] of [process]. *)
Definition parallel_check (jm : JobManager) : M unit :=
  match get_parallel_job_runner (job_runner jm) with
  | Some parallel_job_runner =>
      raise_if_parallel_response_exists jm
        (parallel_job_type parallel_job_runner)
        (parallel_job_runner_version parallel_job_runner)
  | None => ret tt
  end.

(** The inner [try ... finally] block of [process]: pre-compute hook,
    parallel check, compute, serialisation and size validation, and the
    post-compute hook in the [finally] clause.  It yields the job result the
    code after it uses. *)
Definition compute_block (jm : JobManager) : M JobResult :=
  let jr := job_runner jm in
  try_finally
    (call CallPreCompute (pre_compute jr) ;;
     parallel_check jm ;;
     do job_result <- call CallCompute (compute jr);
     let content := result_content job_result in
     match orjson_dumps lib content with
     | Raise e => raise e
     | Ret bytes =>
         if (Z.of_nat (String.length bytes)
             >? content_max_bytes (worker_config jm))%Z
         then raise (Custom (TooBigContentError
                ("The computed response content exceeds the supported size in bytes"
                 +:+ " (" +:+ pretty (content_max_bytes (worker_config jm)) +:+ ").")))
         else ret job_result
     end)
    (call CallPostCompute (post_compute jr)).

(** The [except] clauses of [process], first match first. *)
Definition handle_error (jm : JobManager) (err : exn) : M bool :=
  let jr := job_runner jm in
  match err with
  | DatasetNotFoundError _ => ret false
  | CachedArtifactError _ kind dataset config split cache_entry_with_details =>
      upsert_response_params (cache_kind (processing_step jr)) (job_params jm)
        (content cache_entry_with_details)
        (http_status cache_entry_with_details)
        (error_code cache_entry_with_details)
        (Some (enhanced_details kind dataset config split
                 cache_entry_with_details))
        (get_job_runner_version jr) (revision (job_params jm)) None ;;
      ret false
  | _ =>
      let e := match err with
               | Custom e => e
               | _ => UnexpectedError (str err) err
               end in
      upsert_response_params (cache_kind (processing_step jr)) (job_params jm)
        (as_response lib e) (status_code e) (Some (code e))
        (Some (as_response_with_cause lib e))
        (get_job_runner_version jr) (revision (job_params jm)) None ;;
      ret false
  end.

(** [process]. *)
Definition process (jm : JobManager) : M bool :=
  let jr := job_runner jm in
  try_except
    (do job_result <- compute_block jm;
     upsert_response_params (cache_kind (processing_step jr)) (job_params jm)
       (result_content job_result) HTTPStatus_OK None None
       (get_job_runner_version jr) (revision (job_params jm))
       (Some (result_progress job_result)) ;;
     ret true)
    (fun err => Some (handle_error jm err)).

(** The [DatasetState(...)] object [backfill] builds. *)
Definition dataset_state (jm : JobManager) : DatasetState :=
  mkDatasetState (dataset (job_params jm)) (revision (job_params jm))
    (processing_graph jm) ERROR_CODES_TO_RETRY (priority (job_info jm)).

(** [backfill]. *)
Definition backfill (jm : JobManager) : M unit :=
  DatasetState_backfill (dataset_state jm).

(** [run]. *)
Definition run (jm : JobManager) : M bool :=
  do result <- try_except (process jm) (fun _ => Some (ret false));
  backfill jm ;;
  ret result.

(** [set_crashed]. *)
Definition set_crashed (jm : JobManager) (message : string)
  (cause : option exn) : M unit :=
  let jr := job_runner jm in
  let error := JobManagerCrashedError message cause in
  upsert_response_params (cache_kind (processing_step jr)) (job_params jm)
    (as_response lib error) (status_code error) (Some (code error))
    (Some (as_response_with_cause lib error))
    (get_job_runner_version jr) (revision (job_params jm)) None.

(** [set_exceeded_maximum_duration]. *)
Definition set_exceeded_maximum_duration (jm : JobManager) (message : string)
  (cause : option exn) : M unit :=
  let jr := job_runner jm in
  let error := JobManagerExceededMaximumDurationError message cause in
  upsert_response_params (cache_kind (processing_step jr)) (job_params jm)
    (as_response lib error) (status_code error) (Some (code error))
    (Some (as_response_with_cause lib error))
    (get_job_runner_version jr) (revision (job_params jm)) None.

End JobManager.

(** ** Vocabulary of the statements *)

(** The key of the job's own artifact. *)
Definition job_key (jm : JobManager) : string * JobParams :=
  (cache_kind (processing_step (job_runner jm)), job_params jm).

(** The entry the success path of [process] upserts. *)
Definition ok_entry (jm : JobManager) (job_result : JobResult) : CacheEntry :=
  mkCacheEntry (result_content job_result) HTTPStatus_OK None None
    (get_job_runner_version (job_runner jm)) (revision (job_params jm))
    (Some (result_progress job_result)).

(** The entry the last handler of [process] and the two recovery entry
    points upsert for the error [e]. *)
Definition error_entry (lib : Libcommon) (jm : JobManager) (e : CustomError)
  : CacheEntry :=
  mkCacheEntry (as_response lib e) (status_code e) (Some (code e))
    (Some (as_response_with_cause lib e))
    (get_job_runner_version (job_runner jm)) (revision (job_params jm)) None.

Definition is_upsert (ev : Event) : bool :=
  match ev with CallUpsert _ _ _ => true | _ => false end.

Definition is_backfill (ev : Event) : bool :=
  match ev with CallBackfill _ _ => true | _ => false end.

Definition is_post_compute (ev : Event) : bool :=
  match ev with CallPostCompute => true | _ => false end.

Definition is_compute (ev : Event) : bool :=
  match ev with CallCompute => true | _ => false end.

(** A read of the cache store or the compute call: what can happen between
    the two hooks. *)
Definition is_read_or_compute (ev : Event) : bool :=
  match ev with
  | CallGetResponse _ _ | CallCompute => true
  | _ => false
  end.

(** How many calls of a kind a run made. *)
Definition count (f : Event -> bool) (l : list Event) : nat :=
  length (List.filter f l).

(** The message of the size validation. *)
Definition too_big_message (jm : JobManager) : string :=
  "The computed response content exceeds the supported size in bytes"
  +:+ " (" +:+ pretty (content_max_bytes (worker_config jm)) +:+ ").".

(** Serialisation and size validation of a job result: the exception of
    the serialiser, [TooBigContentError], or the result. *)
Definition size_check (lib : Libcommon) (jm : JobManager)
  (job_result : JobResult) : outcome JobResult :=
  match orjson_dumps lib (result_content job_result) with
  | Raise e => Raise e
  | Ret bytes =>
      if (Z.of_nat (String.length bytes)
          >? content_max_bytes (worker_config jm))%Z
      then Raise (Custom (TooBigContentError lib (too_big_message jm)))
      else Ret job_result
  end.

(** How the compute block ends: with the exception of the post-compute
    hook if it raises one, otherwise with the first exception of the
    pre-compute hook, the parallel check, [compute], the serialiser and the
    size validation, otherwise with the job result. *)
Definition block_outcome (lib : Libcommon) (jm : JobManager) (c : Cache)
  : outcome JobResult :=
  match post_compute (job_runner jm) c with
  | Raise e => Raise e
  | Ret _ =>
      match pre_compute (job_runner jm) c with
      | Raise e => Raise e
      | Ret _ =>
          match out (parallel_check lib jm c) with
          | Raise e => Raise e
          | Ret _ =>
              match compute (job_runner jm) c with
              | Raise e => Raise e
              | Ret job_result => size_check lib jm job_result
              end
          end
      end
  end.

(** A method that leaves the cache store as it found it. *)
Definition read_only {A} (m : M A) : Prop := forall c, store (m c) = c.

(** A method all of whose calls satisfy [f]. *)
Definition calls_all {A} (f : Event -> bool) (m : M A) : Prop :=
  forall c, forallb f (calls (m c)) = true.

(** The error [process] records for an exception that is neither a
    missing dataset nor a cached-artifact error. *)
Definition recorded_error (lib : Libcommon) (err : exn) : CustomError :=
  match err with
  | Custom e => e
  | _ => UnexpectedError lib (str err) err
  end.

(** The job manager [jm] with another compute function in its job runner. *)
Definition with_compute (jm : JobManager)
  (f : Cache -> outcome JobResult) : JobManager :=
  let jr := job_runner jm in
  mkJobManager (job_info jm) (worker_config jm)
    (mkJobRunner (processing_step jr) (get_job_type jr)
       (get_job_runner_version jr) (get_parallel_job_runner jr)
       (pre_compute jr) f (post_compute jr))
    (processing_graph jm).

(** The message of [ResponseAlreadyComputedError]. *)
Definition already_computed_message (parallel_cache_kind : string) : string :=
  "Response has already been computed and stored in cache kind: "
  +:+ parallel_cache_kind +:+ ". Compute will be skipped.".

(** The step has a parallel counterpart whose entry for the same job
    parameters has status OK, the expected version, progress 1.0 and the
    job's revision. *)
Definition parallel_response_is_fresh (jm : JobManager) (c : Cache) : Prop :=
  exists p e q,
    get_parallel_job_runner (job_runner jm) = Some p
    /\ c !! (parallel_job_type p, job_params jm) = Some e
    /\ http_status e = HTTPStatus_OK
    /\ job_runner_version e = parallel_job_runner_version p
    /\ progress e = Some q /\ Qeq q 1
    /\ dataset_git_revision e = revision (job_params jm).

(** A job treated as skipped and not failed: no compute call, no cache
    write, and no failure reported. *)
Definition skipped_not_failed (lib : Libcommon) (jm : JobManager) (c : Cache)
  : Prop :=
  count is_compute (calls (run lib jm c)) = 0%nat
  /\ count is_upsert (calls (run lib jm c)) = 0%nat
  /\ store (run lib jm c) = c
  /\ out (run lib jm c) <> Ret false.

(** What [run] returns when [process] has produced [b] and left the cache
    store [c]: [b], unless the backfill call raises. *)
Definition after_backfill (lib : Libcommon) (jm : JobManager) (c : Cache)
  (b : bool) : outcome bool :=
  match backfill_fault lib (dataset_state jm) c with
  | Some e => Raise e
  | None => Ret b
  end.

(** [run] reports [b]: [process] returns [b], and [run] returns it once
    backfill has returned (an exception of backfill escapes instead). *)
Definition reports (lib : Libcommon) (jm : JobManager) (c : Cache) (b : bool)
  : Prop :=
  out (process lib jm c) = Ret b
  /\ out (run lib jm c) = after_backfill lib jm (store (run lib jm c)) b.

(** [result = self.process()], or [False] in the [except] clause of [run]. *)
Definition result_of (o : outcome bool) : bool :=
  match o with
  | Ret b => b
  | Raise _ => false
  end.

(** The statement that [run] calls backfill once and returns a boolean in
    every case. *)
Definition backfills_once_and_returns (lib : Libcommon) (jm : JobManager)
  (c : Cache) : Prop :=
  count is_backfill (calls (run lib jm c)) = 1%nat
  /\ exists b : bool, out (run lib jm c) = Ret b.

(** The statement that the entry under the job's key has the content, the
    status and the error code of [parent], and that failure is reported. *)
Definition copies_error_of (lib : Libcommon) (jm : JobManager) (c : Cache)
  (parent : CacheEntry) : Prop :=
  (exists e,
     store (run lib jm c) !! job_key jm = Some e
     /\ content e = content parent
     /\ http_status e = http_status parent
     /\ error_code e = error_code parent)
  /\ out (run lib jm c) = Ret false.

(** The statement that nothing is written under the job's key and that
    failure is reported. *)
Definition writes_no_entry_and_fails (lib : Libcommon) (jm : JobManager)
  (c : Cache) : Prop :=
  count is_upsert (calls (run lib jm c)) = 0%nat
  /\ store (run lib jm c) !! job_key jm = c !! job_key jm
  /\ out (run lib jm c) = Ret false.

(** The statement that the entry under the job's key carries the code of
    [TooBigContentError] and that failure is reported. *)
Definition records_too_big_content (lib : Libcommon) (jm : JobManager)
  (c : Cache) : Prop :=
  error_code <$> (store (run lib jm c) !! job_key jm)
    = Some (Some "TooBigContentError")
  /\ out (run lib jm c) = Ret false.

(** The statement that the entry under the job's key is the OK entry of
    [job_result] and that success is reported. *)
Definition upserts_ok_entry_and_succeeds (lib : Libcommon) (jm : JobManager)
  (c : Cache) (job_result : JobResult) : Prop :=
  store (run lib jm c) !! job_key jm = Some (ok_entry jm job_result)
  /\ out (run lib jm c) = Ret true.

(** A call that is not a backfill, or a backfill with the one-element retry
    list. *)
Definition passes_fixed_retry_list (ev : Event) : bool :=
  match ev with
  | CallBackfill state _ =>
      bool_decide (ds_error_codes_to_retry state = ["ClientConnectionError"])
  | _ => true
  end.

(** ** Example jobs *)

(** The quotation mark. *)
Definition quote : string := String (Ascii.ascii_of_nat 34) EmptyString.

Definition join_with_comma (l : list string) : string :=
  match l with
  | [] => EmptyString
  | x :: r => List.fold_left (fun acc y => acc +:+ "," +:+ y) r x
  end.

(** A compact JSON serialiser in the manner of orjson, for the examples:
    no white space, integers in decimal and refused outside the range
    orjson supports (-2^63 to 2^64 - 1), strings between quotation marks as
    they are (the examples use none that needs escaping). *)
Fixpoint example_dumps (j : Json) : outcome string :=
  match j with
  | JNull => Ret "null"
  | JBool b => Ret (if b then "true" else "false")
  | JInt n =>
      if ((- 2 ^ 63 <=? n) && (n <? 2 ^ 64))%Z then Ret (pretty n)
      else Raise (OtherException "Integer exceeds 64-bit range")
  | JStr s => Ret (quote +:+ s +:+ quote)
  | JList items =>
      match
        (fix each (l : list Json) : outcome (list string) :=
           match l with
           | [] => Ret []
           | x :: r =>
               match example_dumps x with
               | Raise e => Raise e
               | Ret a =>
                   match each r with
                   | Raise e => Raise e
                   | Ret b => Ret (a :: b)
                   end
               end
           end) items
      with
      | Raise e => Raise e
      | Ret l => Ret ("[" +:+ join_with_comma l +:+ "]")
      end
  | JDict fields =>
      match
        (fix each (l : list (string * Json)) : outcome (list string) :=
           match l with
           | [] => Ret []
           | (k, x) :: r =>
               match example_dumps x with
               | Raise e => Raise e
               | Ret a =>
                   match each r with
                   | Raise e => Raise e
                   | Ret b => Ret ((quote +:+ k +:+ quote +:+ ":" +:+ a) :: b)
                   end
               end
           end) fields
      with
      | Raise e => Raise e
      | Ret l => Ret ("{" +:+ join_with_comma l +:+ "}")
      end
  end.

(** An instance of the libcommon parameters: the serialiser above, the
    error renderings, status 500 for every error class, one config with two
    splits, no target of undetermined staleness, and a backfill call that
    returns. *)
Definition example_lib : Libcommon :=
  mkLibcommon
    example_dumps
    (fun e => JDict [("error", JStr (message e))])
    (fun e => JDict [("error", JStr (message e));
                     ("cause_exception",
                      match cause e with
                      | Some c => JStr (str c)
                      | None => JNull
                      end)])
    (fun _ => 500)
    (fun _ _ _ => [("default", ["train"; "test"])])
    (fun _ _ _ => false)
    (fun _ _ => None).

(** The same with a backfill call that raises. *)
Definition failing_backfill_lib : Libcommon :=
  mkLibcommon
    (orjson_dumps example_lib) (as_response example_lib)
    (as_response_with_cause example_lib) (class_status example_lib)
    (dataset_layout example_lib) (staleness_undetermined example_lib)
    (fun _ _ => Some (OtherException "queue unreachable")).

Definition example_step : ProcessingStep :=
  mkProcessingStep "dataset-info" "dataset-info" "dataset-info" 2
    DatasetLevel ["config-info"].

Definition example_params : JobParams :=
  mkJobParams "user/dataset" "0123abcd" None None.

(** A job of [example_step] with a limit of ten bytes, hooks that return,
    and the given parallel counterpart and compute function. *)
Definition example_job (parallel : option ParallelJobRunner)
  (compute : Cache -> outcome JobResult) : JobManager :=
  mkJobManager
    (mkJobInfo "job-1" "dataset-info" example_params NORMAL)
    (mkWorkerConfig 10)
    (mkJobRunner example_step "dataset-info" 2 parallel
       (fun _ => Ret tt) compute (fun _ => Ret tt))
    [example_step].

Definition small_result : JobResult := mkJobResult (JStr "ok") (1 # 1).
Definition big_result : JobResult :=
  mkJobResult (JStr "0123456789abcdef") (1 # 1).

Definition example_parallel : ParallelJobRunner :=
  mkParallel "dataset-info-from-parquet" 3.

(** The fresh entry of the parallel counterpart. *)
Definition parallel_entry : CacheEntry :=
  mkCacheEntry (JStr "ok") 200 None None 3 "0123abcd" (Some (1 # 1)).

Definition cache_with_parallel : Cache :=
  {[ ("dataset-info-from-parquet", example_params) := parallel_entry ]}.

(** The errored entry of a parent artifact and the exception that carries
    it. *)
Definition parent_entry : CacheEntry :=
  mkCacheEntry (JDict [("error", JStr "cannot load the config")]) 404
    (Some "ConfigNamesError") None 1 "0123abcd" None.

Definition parent_params : JobParams :=
  mkJobParams "user/dataset" "0123abcd" (Some "default") None.

Definition cache_with_parent : Cache :=
  {[ ("config-info", parent_params) := parent_entry ]}.

Definition parent_error : exn :=
  CachedArtifactError "the previous step failed" "config-info" "user/dataset"
    (Some "default") None parent_entry.

(** A job on a dataset that does not exist. *)
Definition missing_dataset_job : JobManager :=
  example_job None (fun _ => Raise (DatasetNotFoundError "dataset not found")).

(** A job whose parent artifact is cached as an error. *)
Definition failed_parent_job : JobManager :=
  example_job None (fun _ => Raise parent_error).

(** A job that computes four bytes, and one that computes eighteen. *)
Definition small_job : JobManager :=
  example_job None (fun _ => Ret small_result).
Definition big_job : JobManager :=
  example_job None (fun _ => Ret big_result).

(** A job whose step has a parallel counterpart. *)
Definition parallel_job : JobManager :=
  example_job (Some example_parallel) (fun _ => Ret small_result).

(** ** Vocabulary of the further properties *)

Definition is_pre_compute (ev : Event) : bool :=
  match ev with CallPreCompute => true | _ => false end.

Definition is_get_response (ev : Event) : bool :=
  match ev with CallGetResponse _ _ => true | _ => false end.

(** The condition of the [if] in [raise_if_parallel_response_exists], on
    the entry the cache store holds for [kind] and the job's parameters
    ([false] when it holds none). *)
Definition fresh_in_cache (jm : JobManager) (kind : string)
  (parallel_job_version : Z) (c : Cache) : bool :=
  match c !! (kind, job_params jm) with
  | Some e =>
      (http_status e =? HTTPStatus_OK)%Z
      && (job_runner_version e =? parallel_job_version)%Z
      && progress_is_complete (progress e)
      && String.eqb (dataset_git_revision e) (revision (job_params jm))
  | None => false
  end.

(** Whether the parallel check of [process] raises: the step has a parallel
    counterpart and its entry passes the condition. *)
Definition parallel_fresh (jm : JobManager) (c : Cache) : bool :=
  match get_parallel_job_runner (job_runner jm) with
  | Some p =>
      fresh_in_cache jm (parallel_job_type p) (parallel_job_runner_version p) c
  | None => false
  end.

(** An exception outside the classes [process] tells apart: it reaches the
    last handler and is not a [CustomError]. *)
Definition is_plain_exception (err : exn) : bool :=
  match err with
  | DoesNotExist _ | OtherException _ => true
  | _ => false
  end.

(** An upsert call made for the job: under its cache kind and parameters,
    with the job runner's version and the job's revision. *)
Definition upsert_of_job (jm : JobManager) (ev : Event) : Prop :=
  match ev with
  | CallUpsert kind p e =>
      kind = cache_kind (processing_step (job_runner jm))
      /\ p = job_params jm
      /\ job_runner_version e = get_job_runner_version (job_runner jm)
      /\ dataset_git_revision e = revision (job_params jm)
  | _ => True
  end.

(** The two messages of [setup]. *)
Definition step_type_message (jm : JobManager) : string :=
  "The processing step's job type is "
  +:+ step_job_type (processing_step (job_runner jm))
  +:+ ", but the job manager only" +:+ " processes "
  +:+ get_job_type (job_runner jm).

Definition submitted_type_message (jm : JobManager) : string :=
  "The submitted job type is " +:+ job_type jm
  +:+ ", but the job manager only processes "
  +:+ get_job_type (job_runner jm).

(** Example jobs with hooks of their own, a job of another type, and a
    result of exactly ten bytes once serialised. *)
Definition hooked_job (pre post : Cache -> outcome unit)
  (compute : Cache -> outcome JobResult) : JobManager :=
  mkJobManager
    (mkJobInfo "job-2" "dataset-info" example_params NORMAL)
    (mkWorkerConfig 10)
    (mkJobRunner example_step "dataset-info" 2 None pre compute post)
    [example_step].

Definition limit_result : JobResult := mkJobResult (JStr "01234567") (1 # 1).

(** A result orjson refuses: an integer beyond 64 bits. *)
Definition unserialisable_result : JobResult :=
  mkJobResult (JInt (2 ^ 64)) (1 # 1).

Definition unserialisable_job : JobManager :=
  example_job None (fun _ => Ret unserialisable_result).

(** Jobs whose post-compute hook raises after [compute] has raised
    [DatasetNotFoundError], has raised the error of the parent, or has
    returned eighteen bytes. *)
Definition raising_hook : Cache -> outcome unit :=
  fun _ => Raise (OtherException "disk full").

Definition missing_dataset_failing_post_job : JobManager :=
  hooked_job (fun _ => Ret tt) raising_hook
    (fun _ => Raise (DatasetNotFoundError "dataset not found")).

Definition failed_parent_failing_post_job : JobManager :=
  hooked_job (fun _ => Ret tt) raising_hook (fun _ => Raise parent_error).

Definition big_failing_post_job : JobManager :=
  hooked_job (fun _ => Ret tt) raising_hook (fun _ => Ret big_result).

Definition limit_job : JobManager :=
  example_job None (fun _ => Ret limit_result).

Definition failing_post_job : JobManager :=
  hooked_job (fun _ => Ret tt) (fun _ => Raise (OtherException "disk full"))
    (fun _ => Ret small_result).

Definition failing_pre_job : JobManager :=
  hooked_job (fun _ => Raise (OtherException "no space left"))
    (fun _ => Ret tt) (fun _ => Ret small_result).

Definition domain_error : CustomError :=
  mkCustomError "SplitNamesFromStreamingError" 501 "cannot list the splits"
    None.

Definition domain_error_job : JobManager :=
  example_job None (fun _ => Raise (Custom domain_error)).

Definition unexpected_error_job : JobManager :=
  example_job None (fun _ => Raise (DoesNotExist "no such document")).

(** The job of the parallel step of [parallel_job]: it writes under the
    cache kind [parallel_job] reads, with the version it expects. *)
Definition parallel_step : ProcessingStep :=
  mkProcessingStep "dataset-info-from-parquet" "dataset-info-from-parquet"
    "dataset-info-from-parquet" 3 DatasetLevel ["config-parquet"].

Definition parallel_step_job : JobManager :=
  mkJobManager
    (mkJobInfo "job-3" "dataset-info-from-parquet" example_params NORMAL)
    (mkWorkerConfig 10)
    (mkJobRunner parallel_step "dataset-info-from-parquet" 3 None
       (fun _ => Ret tt) (fun _ => Ret small_result) (fun _ => Ret tt))
    [example_step; parallel_step].

(** A job submitted with another type than its runner's. *)
Definition mistyped_job : JobManager :=
  mkJobManager
    (mkJobInfo "job-4" "config-info" example_params NORMAL)
    (mkWorkerConfig 10)
    (mkJobRunner example_step "dataset-info" 2 None
       (fun _ => Ret tt) (fun _ => Ret small_result) (fun _ => Ret tt))
    [example_step].

(** ** Laws of the combinators *)

Section Combinators.

Context {A B : Type}.

Lemma bind_Ret (m : M A) (k : A -> M B) c a :
  out (m c) = Ret a ->
  bind m k c =
    mkRun (out (k a (store (m c)))) (store (k a (store (m c))))
      (calls (m c) ++ calls (k a (store (m c)))).
Proof. intros H. unfold bind. rewrite H. reflexivity. Qed.

Lemma bind_Raise (m : M A) (k : A -> M B) c e :
  out (m c) = Raise e ->
  bind m k c = mkRun (Raise e) (store (m c)) (calls (m c)).
Proof. intros H. unfold bind. rewrite H. reflexivity. Qed.

Lemma try_except_Ret (m : M A) h c a :
  out (m c) = Ret a -> try_except m h c = m c.
Proof. intros H. unfold try_except. rewrite H. reflexivity. Qed.

Lemma try_except_Raise (m : M A) h c e k :
  out (m c) = Raise e -> h e = Some k ->
  try_except m h c =
    mkRun (out (k (store (m c)))) (store (k (store (m c))))
      (calls (m c) ++ calls (k (store (m c)))).
Proof. intros H Hh. unfold try_except. rewrite H, Hh. reflexivity. Qed.

Lemma try_finally_calls (m : M A) (fin : M unit) c :
  calls (try_finally m fin c) = calls (m c) ++ calls (fin (store (m c))).
Proof. unfold try_finally. destruct (out (fin (store (m c)))); reflexivity. Qed.

Lemma try_finally_store (m : M A) (fin : M unit) c :
  store (try_finally m fin c) = store (fin (store (m c))).
Proof. unfold try_finally. destruct (out (fin (store (m c)))); reflexivity. Qed.

Lemma read_only_ret (a : A) : read_only (ret a).
Proof. intros c. reflexivity. Qed.

Lemma read_only_raise e : read_only (@raise A e).
Proof. intros c. reflexivity. Qed.

Lemma read_only_call (ev : Event) (o : Cache -> outcome A) : read_only (call ev o).
Proof. intros c. reflexivity. Qed.

Lemma read_only_bind (m : M A) (k : A -> M B) :
  read_only m -> (forall a, read_only (k a)) -> read_only (bind m k).
Proof.
  intros Hm Hk c. unfold bind.
  destruct (out (m c)) eqn:E; cbn.
  - rewrite Hk. apply Hm.
  - apply Hm.
Qed.

Lemma read_only_try_except (m : M A) h :
  read_only m -> (forall e k, h e = Some k -> read_only k) ->
  read_only (try_except m h).
Proof.
  intros Hm Hh c. unfold try_except.
  destruct (out (m c)) eqn:E; [apply Hm|].
  destruct (h e) eqn:E'; cbn; [|apply Hm].
  rewrite (Hh _ _ E'). apply Hm.
Qed.

Lemma read_only_try_finally (m : M A) fin :
  read_only m -> read_only fin -> read_only (try_finally m fin).
Proof. intros Hm Hf c. rewrite try_finally_store, Hf. apply Hm. Qed.

Lemma calls_all_ret f (a : A) : calls_all f (ret a).
Proof. intros c. reflexivity. Qed.

Lemma calls_all_raise f e : calls_all f (@raise A e).
Proof. intros c. reflexivity. Qed.

Lemma calls_all_call (f : Event -> bool) (ev : Event) (o : Cache -> outcome A) :
  f ev = true -> calls_all f (call ev o).
Proof. intros H c. cbn. rewrite H. reflexivity. Qed.

Lemma calls_all_bind f (m : M A) (k : A -> M B) :
  calls_all f m -> (forall a, calls_all f (k a)) -> calls_all f (bind m k).
Proof.
  intros Hm Hk c. unfold bind.
  destruct (out (m c)) eqn:E; cbn; [|apply Hm].
  rewrite forallb_app, Hm, Hk. reflexivity.
Qed.

Lemma calls_all_try_except f (m : M A) h :
  calls_all f m -> (forall e k, h e = Some k -> calls_all f k) ->
  calls_all f (try_except m h).
Proof.
  intros Hm Hh c. unfold try_except.
  destruct (out (m c)) eqn:E; [apply Hm|].
  destruct (h e) eqn:E'; cbn; [|apply Hm].
  rewrite forallb_app, Hm, (Hh _ _ E'). reflexivity.
Qed.

End Combinators.

Create HintDb effects.
#[local] Hint Resolve read_only_ret read_only_raise read_only_call
  read_only_bind read_only_try_except read_only_try_finally : effects.
#[local] Hint Resolve calls_all_ret calls_all_raise calls_all_call
  calls_all_bind calls_all_try_except : effects.

(** ** The compute block *)

Lemma read_only_raise_if_parallel_response_exists lib jm k v :
  read_only (raise_if_parallel_response_exists lib jm k v).
Proof.
  unfold raise_if_parallel_response_exists, get_response_without_content_params.
  apply read_only_try_except.
  - apply read_only_bind; [apply read_only_call|].
    intros a. destruct (_ && _); auto with effects.
  - intros e m H. destruct e; inversion H; auto with effects.
Qed.

(** The parallel check writes nothing to the cache store. *)
Lemma read_only_parallel_check lib jm : read_only (parallel_check lib jm).
Proof.
  unfold parallel_check. destruct (get_parallel_job_runner _).
  - apply read_only_raise_if_parallel_response_exists.
  - apply read_only_ret.
Qed.

(** The body of the [try] of the compute block, after the pre-compute hook:
    it writes nothing, and it makes only reads and the compute call. *)
Lemma compute_block_body lib jm :
  let body :=
    bind (parallel_check lib jm) (fun _ =>
      bind (call CallCompute (compute (job_runner jm))) (fun job_result =>
        match orjson_dumps lib (result_content job_result) with
        | Raise e => raise e
        | Ret bytes =>
            if (Z.of_nat (String.length bytes)
                >? content_max_bytes (worker_config jm))%Z
            then raise (Custom (TooBigContentError lib (too_big_message jm)))
            else ret job_result
        end)) in
  read_only body
  /\ (forall c,
        out (body c) =
          match out (parallel_check lib jm c) with
          | Raise e => Raise e
          | Ret _ =>
              match compute (job_runner jm) c with
              | Raise e => Raise e
              | Ret job_result => size_check lib jm job_result
              end
          end).
Proof.
  cbv zeta. split.
  - apply read_only_bind; [apply read_only_parallel_check|]. intros _.
    apply read_only_bind; [apply read_only_call|]. intros r.
    destruct (orjson_dumps lib _); [destruct (_ >? _)%Z|]; auto with effects.
  - intros c. unfold bind, call. cbn.
    destruct (out (parallel_check lib jm c)); cbn; [|reflexivity].
    rewrite (read_only_parallel_check lib jm c).
    destruct (compute (job_runner jm) c) as [r|e]; cbn; [|reflexivity].
    unfold size_check.
    destruct (orjson_dumps lib (result_content r)); [|reflexivity].
    destruct (_ >? _)%Z; reflexivity.
Qed.

(** The compute block writes nothing to the cache store. *)
Lemma read_only_compute_block lib jm : read_only (compute_block lib jm).
Proof.
  unfold compute_block.
  apply read_only_try_finally; [|apply read_only_call].
  apply read_only_bind; [apply read_only_call|]. intros _.
  apply (compute_block_body lib jm).
Qed.

(** The outcome of the compute block. *)
Lemma compute_block_out lib jm c :
  out (compute_block lib jm c) = block_outcome lib jm c.
Proof.
  destruct (compute_block_body lib jm) as [Hs Ho]. cbv zeta in Hs, Ho.
  unfold block_outcome, compute_block, try_finally.
  set (body := bind (call CallPreCompute _) _).
  assert (Hstore : store (body c) = c).
  { apply read_only_bind; [apply read_only_call|]. intros _. exact Hs. }
  rewrite Hstore. cbn.
  destruct (post_compute (job_runner jm) c) as [u|e]; cbn; [|reflexivity].
  unfold body, bind at 1, call. cbn.
  destruct (pre_compute (job_runner jm) c) as [u'|e]; cbn; [|reflexivity].
  apply Ho.
Qed.

Lemma calls_all_parallel_check lib jm :
  calls_all is_read_or_compute (parallel_check lib jm).
Proof.
  unfold parallel_check, raise_if_parallel_response_exists,
    get_response_without_content_params.
  destruct (get_parallel_job_runner _); [|apply calls_all_ret].
  apply calls_all_try_except.
  - apply calls_all_bind; [apply calls_all_call; reflexivity|].
    intros a. destruct (_ && _); auto with effects.
  - intros e m H. destruct e; inversion H; auto with effects.
Qed.

(** The calls of the compute block: the pre-compute hook first, the
    post-compute hook last, and between them only reads of the cache store
    and the compute call. *)
Lemma compute_block_calls lib jm c :
  exists mid,
    calls (compute_block lib jm c) = CallPreCompute :: mid ++ [CallPostCompute]
    /\ forallb is_read_or_compute mid = true.
Proof.
  unfold compute_block. rewrite try_finally_calls.
  set (rest := bind (parallel_check lib jm) _).
  assert (Hrest : calls_all is_read_or_compute rest).
  { apply calls_all_bind; [apply calls_all_parallel_check|]. intros _.
    apply calls_all_bind; [apply calls_all_call; reflexivity|]. intros r.
    destruct (orjson_dumps lib _); [destruct (_ >? _)%Z|]; auto with effects. }
  unfold bind at 1. cbn.
  destruct (pre_compute (job_runner jm) c); cbn.
  - exists (calls (rest c)). split; [reflexivity|apply Hrest].
  - exists []. split; reflexivity.
Qed.

(** What a compute block that returns went through: both hooks returned,
    the parallel check let the job pass, [compute] returned the result, the
    serialiser returned its bytes, and they are within the limit. *)
Lemma compute_block_Ret lib jm c job_result :
  out (compute_block lib jm c) = Ret job_result <->
  pre_compute (job_runner jm) c = Ret tt
  /\ out (parallel_check lib jm c) = Ret tt
  /\ compute (job_runner jm) c = Ret job_result
  /\ (exists bytes,
        orjson_dumps lib (result_content job_result) = Ret bytes
        /\ (Z.of_nat (String.length bytes)
            <= content_max_bytes (worker_config jm))%Z)
  /\ post_compute (job_runner jm) c = Ret tt.
Proof.
  rewrite compute_block_out. unfold block_outcome, size_check.
  destruct (post_compute (job_runner jm) c) as [[]|e].
  2:{ split; [discriminate|]. intros (_ & _ & _ & _ & H). discriminate. }
  destruct (pre_compute (job_runner jm) c) as [[]|e].
  2:{ split; [discriminate|]. intros (H & _). discriminate. }
  destruct (out (parallel_check lib jm c)) as [[]|e].
  2:{ split; [discriminate|]. intros (_ & H & _). discriminate. }
  destruct (compute (job_runner jm) c) as [r|e].
  2:{ split; [discriminate|]. intros (_ & _ & H & _). discriminate. }
  destruct (orjson_dumps lib (result_content r)) as [bytes|e] eqn:Hd.
  2:{ split; [discriminate|]. intros (_ & _ & Hr & (b & Hb & _) & _).
      inversion Hr; subst. congruence. }
  destruct (Z.gtb_spec (Z.of_nat (String.length bytes))
              (content_max_bytes (worker_config jm))) as [Hgt|Hle].
  - split; [discriminate|]. intros (_ & _ & Hr & (b & Hb & Hle) & _).
    inversion Hr; subst. rewrite Hd in Hb. inversion Hb; subst. lia.
  - split.
    + intros H. inversion H; subst. repeat split; eauto.
    + intros (_ & _ & Hr & _). exact Hr.
Qed.

(** When [compute] raises and the post-compute hook returns, the block
    raises the same exception. *)
Lemma compute_block_compute_raises lib jm c e :
  pre_compute (job_runner jm) c = Ret tt ->
  out (parallel_check lib jm c) = Ret tt ->
  compute (job_runner jm) c = Raise e ->
  post_compute (job_runner jm) c = Ret tt ->
  out (compute_block lib jm c) = Raise e.
Proof.
  intros Hpre Hpar Hc Hpost.
  rewrite compute_block_out. unfold block_outcome.
  rewrite Hpost, Hpre, Hpar, Hc. reflexivity.
Qed.

(** An exception of the post-compute hook replaces the outcome of the
    compute block, whatever it was. *)
Lemma compute_block_post_compute_raises lib jm c e :
  post_compute (job_runner jm) c = Raise e ->
  out (compute_block lib jm c) = Raise e.
Proof.
  intros Hpost. rewrite compute_block_out. unfold block_outcome.
  rewrite Hpost. reflexivity.
Qed.

(** When [compute] returns and the post-compute hook returns too, the block
    ends as the serialisation and the size validation do. *)
Lemma compute_block_size_check lib jm c job_result :
  pre_compute (job_runner jm) c = Ret tt ->
  out (parallel_check lib jm c) = Ret tt ->
  compute (job_runner jm) c = Ret job_result ->
  post_compute (job_runner jm) c = Ret tt ->
  out (compute_block lib jm c) = size_check lib jm job_result.
Proof.
  intros Hpre Hpar Hc Hpost.
  rewrite compute_block_out. unfold block_outcome.
  rewrite Hpost, Hpre, Hpar, Hc. reflexivity.
Qed.
(** ** [process] and [run], path by path *)

(** The success path. *)
Lemma process_success lib jm c job_result :
  out (compute_block lib jm c) = Ret job_result ->
  process lib jm c =
    mkRun (Ret true) (<[job_key jm := ok_entry jm job_result]> c)
      (calls (compute_block lib jm c)
       ++ [CallUpsert (cache_kind (processing_step (job_runner jm)))
             (job_params jm) (ok_entry jm job_result)]).
Proof.
  intros H. unfold process.
  rewrite (try_except_Ret _ _ _ true).
  - rewrite (bind_Ret _ _ _ _ H), read_only_compute_block. reflexivity.
  - rewrite (bind_Ret _ _ _ _ H). reflexivity.
Qed.

(** The failure paths: the handler runs on the cache store as it was. *)
Lemma process_failure lib jm c e :
  out (compute_block lib jm c) = Raise e ->
  process lib jm c =
    mkRun (out (handle_error lib jm e c)) (store (handle_error lib jm e c))
      (calls (compute_block lib jm c) ++ calls (handle_error lib jm e c)).
Proof.
  intros H. unfold process.
  rewrite (try_except_Raise _ _ _ e (handle_error lib jm e)); [|
    rewrite (bind_Raise _ _ _ _ H); reflexivity | reflexivity].
  rewrite (bind_Raise _ _ _ _ H). cbn. rewrite read_only_compute_block.
  reflexivity.
Qed.

(** What each handler does. *)
Lemma handle_error_cases lib jm err c :
  match err with
  | DatasetNotFoundError _ =>
      handle_error lib jm err c = mkRun (Ret false) c []
  | CachedArtifactError _ kind dataset config split parent =>
      let e := mkCacheEntry (content parent) (http_status parent)
                 (error_code parent)
                 (Some (enhanced_details kind dataset config split parent))
                 (get_job_runner_version (job_runner jm))
                 (revision (job_params jm)) None in
      handle_error lib jm err c =
        mkRun (Ret false) (<[job_key jm := e]> c)
          [CallUpsert (cache_kind (processing_step (job_runner jm)))
             (job_params jm) e]
  | _ =>
      let e := error_entry lib jm (recorded_error lib err) in
      handle_error lib jm err c =
        mkRun (Ret false) (<[job_key jm := e]> c)
          [CallUpsert (cache_kind (processing_step (job_runner jm)))
             (job_params jm) e]
  end.
Proof. destruct err; reflexivity. Qed.

(** Every handler returns [False] and makes at most one call, an upsert. *)
Lemma handle_error_shape lib jm err c :
  out (handle_error lib jm err c) = Ret false
  /\ forallb is_upsert (calls (handle_error lib jm err c)) = true
  /\ (length (calls (handle_error lib jm err c)) <= 1)%nat.
Proof. destruct err; cbn; auto. Qed.

(** [process] recovers every failure of the compute block: it always
    returns a boolean. *)
Lemma process_returns lib jm c : exists b, out (process lib jm c) = Ret b.
Proof.
  destruct (out (compute_block lib jm c)) as [r|e] eqn:H.
  - rewrite (process_success _ _ _ _ H). eauto.
  - rewrite (process_failure _ _ _ _ H). cbn.
    destruct (handle_error_shape lib jm e c) as [-> _]. eauto.
Qed.

(** The calls of [process]: the compute block, then at most one upsert. *)
Lemma process_calls lib jm c :
  exists tail,
    calls (process lib jm c) = calls (compute_block lib jm c) ++ tail
    /\ forallb is_upsert tail = true /\ (length tail <= 1)%nat.
Proof.
  destruct (out (compute_block lib jm c)) as [r|e] eqn:H.
  - rewrite (process_success _ _ _ _ H). cbn. eexists. split; [reflexivity|].
    cbn. auto.
  - rewrite (process_failure _ _ _ _ H). cbn. eexists. split; [reflexivity|].
    destruct (handle_error_shape lib jm e c) as (_ & ? & ?). auto.
Qed.

(** [run] is [process] followed by one backfill call on the cache store
    [process] left; it returns the result of [process] unless the backfill
    call raises. *)
Lemma run_unfold lib jm c :
  run lib jm c =
    mkRun (after_backfill lib jm (store (process lib jm c))
             (result_of (out (process lib jm c))))
      (store (process lib jm c))
      (calls (process lib jm c)
       ++ [CallBackfill (dataset_state jm)
             (plan lib (dataset_state jm) (store (process lib jm c)))]).
Proof.
  destruct (process_returns lib jm c) as [b Hb].
  unfold run.
  assert (Ht : try_except (process lib jm) (fun _ => Some (ret false)) c
               = process lib jm c) by (apply (try_except_Ret _ _ _ b Hb)).
  rewrite (bind_Ret _ _ c b) by (rewrite Ht; exact Hb).
  rewrite Ht. unfold bind, backfill, DatasetState_backfill, ret, after_backfill.
  cbn [out store calls]. rewrite Hb. cbn [result_of].
  destruct (backfill_fault lib (dataset_state jm) (store (process lib jm c)));
    cbn [out store calls]; rewrite ?app_nil_r; reflexivity.
Qed.

(** [run] leaves the cache store [process] left. *)
Lemma run_store lib jm c : store (run lib jm c) = store (process lib jm c).
Proof. rewrite run_unfold. reflexivity. Qed.

(** What [process] returns is what [run] reports. *)
Lemma reports_of_process lib jm c b :
  out (process lib jm c) = Ret b -> reports lib jm c b.
Proof.
  intros H. split; [exact H|].
  rewrite run_store, run_unfold. cbn [out]. rewrite H. reflexivity.
Qed.

(** When the backfill call returns, [run] returns what it reports. *)
Lemma reports_returns lib jm c b :
  reports lib jm c b ->
  backfill_fault lib (dataset_state jm) (store (run lib jm c)) = None ->
  out (run lib jm c) = Ret b.
Proof. intros [_ H] Hf. rewrite H. unfold after_backfill. rewrite Hf. reflexivity. Qed.

(** ** Counting calls *)

Lemma count_app f l1 l2 : count f (l1 ++ l2) = (count f l1 + count f l2)%nat.
Proof. unfold count. rewrite List.filter_app, length_app. reflexivity. Qed.

Lemma count_none (f g : Event -> bool) l :
  (forall ev, g ev = true -> f ev = false) ->
  forallb g l = true -> count f l = 0%nat.
Proof.
  intros Hfg. unfold count. induction l as [|ev l IH]; cbn; [reflexivity|].
  intros H. apply andb_prop in H as [Hg Hl].
  rewrite (Hfg _ Hg). apply IH, Hl.
Qed.

(** The compute block makes no call of a kind that is neither a hook, a
    read of the cache store, nor the compute call. *)
Lemma compute_block_count_none lib jm c (f : Event -> bool) :
  f CallPreCompute = false -> f CallPostCompute = false ->
  (forall ev, is_read_or_compute ev = true -> f ev = false) ->
  count f (calls (compute_block lib jm c)) = 0%nat.
Proof.
  intros Hpre Hpost Hmid.
  destruct (compute_block_calls lib jm c) as (mid & -> & Hm).
  change (CallPreCompute :: mid ++ [CallPostCompute])
    with ([CallPreCompute] ++ mid ++ [CallPostCompute]).
  rewrite !count_app, (count_none f is_read_or_compute mid Hmid Hm).
  unfold count. cbn. rewrite Hpre, Hpost. reflexivity.
Qed.

Lemma read_or_compute_not_upsert ev :
  is_read_or_compute ev = true -> is_upsert ev = false.
Proof. destruct ev; cbn; congruence. Qed.

Lemma read_or_compute_not_backfill ev :
  is_read_or_compute ev = true -> is_backfill ev = false.
Proof. destruct ev; cbn; congruence. Qed.

Lemma read_or_compute_not_post_compute ev :
  is_read_or_compute ev = true -> is_post_compute ev = false.
Proof. destruct ev; cbn; congruence. Qed.

Lemma upsert_not_backfill ev : is_upsert ev = true -> is_backfill ev = false.
Proof. destruct ev; cbn; congruence. Qed.

Lemma upsert_not_post_compute ev :
  is_upsert ev = true -> is_post_compute ev = false.
Proof. destruct ev; cbn; congruence. Qed.

Lemma filter_all (f : Event -> bool) l :
  forallb f l = true -> List.filter f l = l.
Proof.
  induction l as [|ev l IH]; cbn; [reflexivity|].
  intros H. apply andb_prop in H as [Hf Hl]. rewrite Hf, (IH Hl). reflexivity.
Qed.

Lemma forallb_weaken (f g : Event -> bool) l :
  (forall ev, f ev = true -> g ev = true) ->
  forallb f l = true -> forallb g l = true.
Proof.
  intros Hfg. induction l as [|ev l IH]; cbn; [reflexivity|].
  intros H. apply andb_prop in H as [Hf Hl].
  rewrite (Hfg _ Hf), (IH Hl). reflexivity.
Qed.

(** ** Claims *)

(** C7. Once [process] has entered [pre_compute], the post-compute hook is
    called exactly once on every exit path, whatever the hooks, the parallel
    check, [compute], the serialiser or the size validation do: the calls of
    [process] are the pre-compute hook, then only reads of the cache store
    and the compute call, then the post-compute hook, and only after it the
    upsert that records the outcome (if any). *)
Theorem post_compute_runs_on_every_exit lib jm c :
  exists mid tail,
    calls (process lib jm c) = CallPreCompute :: mid ++ CallPostCompute :: tail
    /\ forallb is_read_or_compute mid = true
    /\ forallb is_upsert tail = true
    /\ count is_post_compute (calls (process lib jm c)) = 1%nat.
Proof.
  destruct (process_calls lib jm c) as (tail & Hp & Ht & _).
  destruct (compute_block_calls lib jm c) as (mid & Hb & Hm).
  exists mid, tail. rewrite Hp, Hb.
  split; [|split; [exact Hm|split; [exact Ht|]]].
  - cbn. rewrite <- app_assoc. reflexivity.
  - change (CallPreCompute :: mid ++ [CallPostCompute])
      with ([CallPreCompute] ++ mid ++ [CallPostCompute]).
    rewrite !count_app.
    rewrite (count_none _ _ mid read_or_compute_not_post_compute Hm).
    rewrite (count_none _ _ tail upsert_not_post_compute Ht).
    reflexivity.
Qed.

(** [process] never calls backfill. *)
Lemma process_count_backfill lib jm c :
  count is_backfill (calls (process lib jm c)) = 0%nat.
Proof.
  destruct (process_calls lib jm c) as (tail & -> & Ht & _).
  rewrite count_app.
  rewrite (compute_block_count_none lib jm c is_backfill eq_refl eq_refl
             read_or_compute_not_backfill).
  rewrite (count_none _ _ tail upsert_not_backfill Ht).
  reflexivity.
Qed.

(** C1, as the code has it.  For every job, [process] returns a boolean: no
    failure of the hooks, of the parallel check, of [compute], of the
    serialiser or of the size validation escapes.  [run] calls backfill
    exactly once, as its last call, after everything [process] did on
    whichever path, on the cache store [process] left.  When the backfill
    call returns, [run] returns the boolean of [process]; when it raises,
    the exception escapes [run], which has no handler around the call. *)
Theorem run_backfills_once_and_returns_unless_backfill_raises lib jm c :
  (exists b : bool,
     out (process lib jm c) = Ret b
     /\ out (run lib jm c)
        = after_backfill lib jm (store (process lib jm c)) b)
  /\ calls (run lib jm c) =
       calls (process lib jm c)
       ++ [CallBackfill (dataset_state jm)
             (plan lib (dataset_state jm) (store (process lib jm c)))]
  /\ count is_backfill (calls (run lib jm c)) = 1%nat
  /\ store (run lib jm c) = store (process lib jm c)
  /\ (backfill_fault lib (dataset_state jm) (store (process lib jm c)) = None ->
      exists b : bool, out (run lib jm c) = Ret b)
  /\ (forall e,
        backfill_fault lib (dataset_state jm) (store (process lib jm c))
          = Some e ->
        out (run lib jm c) = Raise e).
Proof.
  destruct (process_returns lib jm c) as [b Hb].
  rewrite run_unfold. cbn [out store calls]. rewrite Hb. cbn [result_of].
  split; [eauto|]. split; [reflexivity|].
  split; [rewrite count_app, process_count_backfill; reflexivity|].
  split; [reflexivity|].
  unfold after_backfill. split.
  - intros ->. eauto.
  - intros e ->. reflexivity.
Qed.

(** What [run] does when the compute block raises [err]. *)
Lemma run_failure lib jm c err :
  out (compute_block lib jm c) = Raise err ->
  store (run lib jm c) = store (handle_error lib jm err c)
  /\ List.filter is_upsert (calls (run lib jm c))
     = calls (handle_error lib jm err c)
  /\ reports lib jm c false.
Proof.
  intros H.
  destruct (handle_error_shape lib jm err c) as (Ho & Hu & _).
  assert (Hp : out (process lib jm c) = Ret false)
    by (rewrite (process_failure _ _ _ _ H); exact Ho).
  split; [|split; [|apply reports_of_process, Hp]].
  - rewrite run_store, (process_failure _ _ _ _ H). reflexivity.
  - rewrite run_unfold, (process_failure _ _ _ _ H). cbn [calls].
    rewrite !List.filter_app, (filter_all _ _ Hu).
    assert (Hn : List.filter is_upsert (calls (compute_block lib jm c)) = []).
    { apply length_zero_iff_nil.
      apply (compute_block_count_none lib jm c is_upsert eq_refl eq_refl
               read_or_compute_not_upsert). }
    rewrite Hn. cbn. apply app_nil_r.
Qed.

(** What [run] does when the compute block raises a [CustomError]. *)
Lemma run_custom_error lib jm c e :
  out (compute_block lib jm c) = Raise (Custom e) ->
  store (run lib jm c) = <[job_key jm := error_entry lib jm e]> c
  /\ List.filter is_upsert (calls (run lib jm c)) =
       [CallUpsert (cache_kind (processing_step (job_runner jm)))
          (job_params jm) (error_entry lib jm e)]
  /\ reports lib jm c false.
Proof.
  intros H. destruct (run_failure lib jm c _ H) as (Hs & Hu & Hr).
  rewrite Hs, Hu. repeat split; apply Hr.
Qed.

(** What [run] does when the compute block returns. *)
Lemma run_success lib jm c job_result :
  out (compute_block lib jm c) = Ret job_result ->
  store (run lib jm c) = <[job_key jm := ok_entry jm job_result]> c
  /\ List.filter is_upsert (calls (run lib jm c)) =
       [CallUpsert (cache_kind (processing_step (job_runner jm)))
          (job_params jm) (ok_entry jm job_result)]
  /\ reports lib jm c true.
Proof.
  intros H.
  assert (Hp : out (process lib jm c) = Ret true)
    by (rewrite (process_success _ _ _ _ H); reflexivity).
  split; [|split; [|apply reports_of_process, Hp]].
  - rewrite run_store, (process_success _ _ _ _ H). reflexivity.
  - rewrite run_unfold, (process_success _ _ _ _ H). cbn [calls].
    rewrite !List.filter_app.
    assert (Hn : List.filter is_upsert (calls (compute_block lib jm c)) = []).
    { apply length_zero_iff_nil.
      apply (compute_block_count_none lib jm c is_upsert eq_refl eq_refl
               read_or_compute_not_upsert). }
    rewrite Hn. reflexivity.
Qed.

(** C4, as the code has it.  For every job whose [compute] raises
    [DatasetNotFoundError] and whose post-compute hook returns, [run] writes
    nothing to the cache store (no upsert call is made and the store, at the
    job's key as at every other, is as before) and reports failure:
    [process] returns [False], which [run] returns once backfill has
    returned. *)
Theorem dataset_not_found_writes_no_entry lib jm c message :
  pre_compute (job_runner jm) c = Ret tt ->
  out (parallel_check lib jm c) = Ret tt ->
  compute (job_runner jm) c = Raise (DatasetNotFoundError message) ->
  post_compute (job_runner jm) c = Ret tt ->
  count is_upsert (calls (run lib jm c)) = 0%nat
  /\ store (run lib jm c) = c
  /\ store (run lib jm c) !! job_key jm = c !! job_key jm
  /\ reports lib jm c false.
Proof.
  intros Hpre Hpar Hc Hpost.
  pose proof (compute_block_compute_raises lib jm c _ Hpre Hpar Hc Hpost) as H.
  destruct (run_failure lib jm c _ H) as (Hs & Hu & Hr).
  cbn in Hs, Hu. unfold count. rewrite Hu, Hs. repeat split; apply Hr.
Qed.

(** C3, as the code has it.  For every job whose [compute] raises the
    [CachedArtifactError] of a parent artifact whose cache entry [parent]
    holds, and whose post-compute hook returns, [run] upserts under the
    job's key an entry whose content, HTTP status and error code are those
    of [parent]; its details are those of [parent] with the entry
    "copied_from_artifact" that names the kind, dataset, config and split of
    the parent; it carries the job runner's version and the job's revision;
    it is the only upsert, and [run] reports failure. *)
Theorem cached_artifact_error_is_copied
  lib jm c message kind parent_dataset parent_revision parent_config
  parent_split parent :
  pre_compute (job_runner jm) c = Ret tt ->
  out (parallel_check lib jm c) = Ret tt ->
  c !! (kind, mkJobParams parent_dataset parent_revision parent_config
                parent_split) = Some parent ->
  compute (job_runner jm) c =
    Raise (CachedArtifactError message kind parent_dataset parent_config
             parent_split parent) ->
  post_compute (job_runner jm) c = Ret tt ->
  exists e,
    store (run lib jm c) = <[job_key jm := e]> c
    /\ store (run lib jm c) !! job_key jm = Some e
    /\ List.filter is_upsert (calls (run lib jm c)) =
         [CallUpsert (cache_kind (processing_step (job_runner jm)))
            (job_params jm) e]
    /\ content e = content parent
    /\ http_status e = http_status parent
    /\ error_code e = error_code parent
    /\ details e
       = Some (enhanced_details kind parent_dataset parent_config parent_split
                 parent)
    /\ In ("copied_from_artifact",
           copied_from_artifact kind parent_dataset parent_config parent_split)
          (details_fields (details e))
    /\ (forall kv,
          In kv (details_fields (details parent)) ->
          fst kv <> "copied_from_artifact" ->
          In kv (details_fields (details e)))
    /\ job_runner_version e = get_job_runner_version (job_runner jm)
    /\ dataset_git_revision e = revision (job_params jm)
    /\ reports lib jm c false.
Proof.
  intros Hpre Hpar _ Hc Hpost.
  pose proof (compute_block_compute_raises lib jm c _ Hpre Hpar Hc Hpost) as H.
  destruct (run_failure lib jm c _ H) as (Hs & Hu & Hr).
  cbn in Hs, Hu. rewrite Hs, Hu.
  eexists. split; [reflexivity|]. split; [apply lookup_insert_eq|].
  split; [reflexivity|]. cbn.
  repeat split; try exact (proj1 Hr); try exact (proj2 Hr).
  - apply in_or_app. right. left. reflexivity.
  - intros kv Hin Hne. apply in_or_app. left.
    apply List.filter_In. split; [exact Hin|].
    destruct (String.eqb_spec (fst kv) "copied_from_artifact"); [tauto|reflexivity].
Qed.

(** C6, as the code has it.  For every job whose hooks return, that the
    parallel check lets pass, whose [compute] returns [job_result] and whose
    content serialises to at most [content_max_bytes] bytes, [run] upserts
    under the job's key an entry with status OK, the computed content, the
    job runner's version, the job's revision and the computed progress, so
    that a read of the key afterwards finds it; it is the only upsert, and
    [run] reports success: [process] returns [True], which [run] returns
    once backfill has returned. *)
Theorem successful_job_upserts_ok_entry lib jm c job_result bytes :
  pre_compute (job_runner jm) c = Ret tt ->
  out (parallel_check lib jm c) = Ret tt ->
  compute (job_runner jm) c = Ret job_result ->
  orjson_dumps lib (result_content job_result) = Ret bytes ->
  (Z.of_nat (String.length bytes) <= content_max_bytes (worker_config jm))%Z ->
  post_compute (job_runner jm) c = Ret tt ->
  exists e,
    store (run lib jm c) = <[job_key jm := e]> c
    /\ store (run lib jm c) !! job_key jm = Some e
    /\ List.filter is_upsert (calls (run lib jm c)) =
         [CallUpsert (cache_kind (processing_step (job_runner jm)))
            (job_params jm) e]
    /\ http_status e = HTTPStatus_OK
    /\ error_code e = None
    /\ content e = result_content job_result
    /\ job_runner_version e = get_job_runner_version (job_runner jm)
    /\ dataset_git_revision e = revision (job_params jm)
    /\ progress e = Some (result_progress job_result)
    /\ reports lib jm c true.
Proof.
  intros Hpre Hpar Hc Hd Hsz Hpost.
  assert (H : out (compute_block lib jm c) = Ret job_result)
    by (apply compute_block_Ret; eauto 10).
  destruct (run_success lib jm c _ H) as (Hs & Hu & Hr).
  exists (ok_entry jm job_result). rewrite Hs, Hu.
  split; [reflexivity|]. split; [apply lookup_insert_eq|].
  repeat split; apply Hr.
Qed.

(** The size validation fails: the compute block raises
    [TooBigContentError] with the limit in its message. *)
Lemma compute_block_too_big lib jm c job_result bytes :
  pre_compute (job_runner jm) c = Ret tt ->
  out (parallel_check lib jm c) = Ret tt ->
  compute (job_runner jm) c = Ret job_result ->
  orjson_dumps lib (result_content job_result) = Ret bytes ->
  (Z.of_nat (String.length bytes) > content_max_bytes (worker_config jm))%Z ->
  post_compute (job_runner jm) c = Ret tt ->
  out (compute_block lib jm c) =
    Raise (Custom (TooBigContentError lib (too_big_message jm))).
Proof.
  intros Hpre Hpar Hc Hd Hsz Hpost.
  rewrite (compute_block_size_check lib jm c _ Hpre Hpar Hc Hpost).
  unfold size_check. rewrite Hd.
  apply Z.gt_lt, Z.gtb_lt in Hsz. rewrite Hsz. reflexivity.
Qed.

(** C5, as the code has it.  For every job whose computed content
    serialises to more bytes than [content_max_bytes] (the hooks returning,
    the post-compute hook in particular, and the parallel check letting the
    job pass), [run] upserts under the job's key the rendering of a
    [TooBigContentError] whose message ends with the configured limit; the
    entry is built from the limit, the job runner's version and the job's
    revision only, so that another oversized result leaves the very same
    cache store; and [run] reports failure. *)
Theorem oversized_content_is_not_stored lib jm c job_result bytes :
  pre_compute (job_runner jm) c = Ret tt ->
  out (parallel_check lib jm c) = Ret tt ->
  compute (job_runner jm) c = Ret job_result ->
  orjson_dumps lib (result_content job_result) = Ret bytes ->
  (Z.of_nat (String.length bytes) > content_max_bytes (worker_config jm))%Z ->
  post_compute (job_runner jm) c = Ret tt ->
  let error := TooBigContentError lib (too_big_message jm) in
  let e := error_entry lib jm error in
  store (run lib jm c) = <[job_key jm := e]> c
  /\ store (run lib jm c) !! job_key jm = Some e
  /\ List.filter is_upsert (calls (run lib jm c)) =
       [CallUpsert (cache_kind (processing_step (job_runner jm)))
          (job_params jm) e]
  /\ error_code e = Some "TooBigContentError"
  /\ content e = as_response lib error
  /\ message error =
       "The computed response content exceeds the supported size in bytes ("
       +:+ pretty (content_max_bytes (worker_config jm)) +:+ ")."
  /\ (forall f other other_bytes,
        f c = Ret other ->
        orjson_dumps lib (result_content other) = Ret other_bytes ->
        (Z.of_nat (String.length other_bytes)
         > content_max_bytes (worker_config jm))%Z ->
        store (run lib (with_compute jm f) c) = store (run lib jm c))
  /\ reports lib jm c false.
Proof.
  intros Hpre Hpar Hc Hd Hsz Hpost error e.
  pose proof (compute_block_too_big lib jm c job_result bytes Hpre Hpar Hc Hd
                Hsz Hpost) as Hb.
  destruct (run_custom_error lib jm c _ Hb) as (Hs & Hu & Ho).
  split; [exact Hs|]. split; [rewrite Hs; apply lookup_insert_eq|].
  split; [exact Hu|]. split; [reflexivity|]. split; [reflexivity|].
  split; [reflexivity|]. split; [|exact Ho].
  intros f other other_bytes Hf Hd' Hsz'.
  pose proof (compute_block_too_big lib (with_compute jm f) c other other_bytes
                Hpre Hpar Hf Hd' Hsz' Hpost) as Hb'.
  destruct (run_custom_error lib (with_compute jm f) c _ Hb') as (Hs' & _).
  rewrite Hs', Hs. reflexivity.
Qed.

(** The parallel check raises when the parallel response is fresh. *)
Lemma parallel_check_fresh lib jm c p e q :
  get_parallel_job_runner (job_runner jm) = Some p ->
  c !! (parallel_job_type p, job_params jm) = Some e ->
  http_status e = HTTPStatus_OK ->
  job_runner_version e = parallel_job_runner_version p ->
  progress e = Some q -> Qeq q 1 ->
  dataset_git_revision e = revision (job_params jm) ->
  parallel_check lib jm c =
    mkRun (Raise (Custom (ResponseAlreadyComputedError lib
                            (already_computed_message (parallel_job_type p)))))
      c [CallGetResponse (parallel_job_type p) (job_params jm)].
Proof.
  intros Hp He Hst Hv Hpr Hq Hrev.
  unfold parallel_check. rewrite Hp.
  unfold raise_if_parallel_response_exists,
    get_response_without_content_params, try_except, bind, call. cbn.
  rewrite He. cbn. rewrite Hst, Hv, Hpr, Hrev. cbn.
  rewrite Z.eqb_refl, String.eqb_refl.
  apply Qeq_bool_iff in Hq. rewrite Hq. reflexivity.
Qed.

(** C2, as the code has it.  For every job whose step has a parallel
    counterpart with a fresh entry (status OK, expected version, progress
    1.0, the job's revision) and whose hooks return, [run] makes no compute
    call; the [ResponseAlreadyComputedError] the check raises is handled as
    any other [CustomError]: its rendering is upserted under the job's own
    key, with the code "ResponseAlreadyComputedError", and [run] reports
    failure: [process] returns [False], which [run] returns once backfill
    has returned. *)
Theorem fresh_parallel_response_skips_compute lib jm c p e q :
  pre_compute (job_runner jm) c = Ret tt ->
  get_parallel_job_runner (job_runner jm) = Some p ->
  c !! (parallel_job_type p, job_params jm) = Some e ->
  http_status e = HTTPStatus_OK ->
  job_runner_version e = parallel_job_runner_version p ->
  progress e = Some q -> Qeq q 1 ->
  dataset_git_revision e = revision (job_params jm) ->
  post_compute (job_runner jm) c = Ret tt ->
  let error := ResponseAlreadyComputedError lib
                 (already_computed_message (parallel_job_type p)) in
  count is_compute (calls (run lib jm c)) = 0%nat
  /\ store (run lib jm c) = <[job_key jm := error_entry lib jm error]> c
  /\ List.filter is_upsert (calls (run lib jm c)) =
       [CallUpsert (cache_kind (processing_step (job_runner jm)))
          (job_params jm) (error_entry lib jm error)]
  /\ error_code (error_entry lib jm error)
     = Some "ResponseAlreadyComputedError"
  /\ reports lib jm c false.
Proof.
  intros Hpre Hp He Hst Hv Hpr Hq Hrev Hpost error.
  pose proof (parallel_check_fresh lib jm c p e q Hp He Hst Hv Hpr Hq Hrev)
    as Hpar.
  assert (Hblock : compute_block lib jm c =
    mkRun (Raise (Custom error)) c
      [CallPreCompute; CallGetResponse (parallel_job_type p) (job_params jm);
       CallPostCompute]).
  { unfold compute_block, try_finally, bind, call. cbn.
    rewrite Hpre. cbn. rewrite Hpar. cbn. rewrite Hpost. reflexivity. }
  assert (Hout : out (compute_block lib jm c) = Raise (Custom error))
    by (rewrite Hblock; reflexivity).
  destruct (run_custom_error lib jm c _ Hout) as (Hs & Hu & Ho).
  split; [|auto].
  rewrite run_unfold, (process_failure _ _ _ _ Hout), Hblock.
  reflexivity.
Qed.

(** C8. Each of the two recovery entry points makes one call, the same
    [upsert_response_params] call with the same arguments as the last
    handler of [process] makes for the same error: it writes under the
    job's key the rendering of a [JobManagerCrashedError], respectively of a
    [JobManagerExceededMaximumDurationError], with the job runner's version
    and the job's revision.  The two entries carry two different error
    codes. *)
Theorem recovery_entry_points_upsert_errors lib jm c message cause :
  let crashed := error_entry lib jm (JobManagerCrashedError lib message cause) in
  let exceeded :=
    error_entry lib jm
      (JobManagerExceededMaximumDurationError lib message cause) in
  set_crashed lib jm message cause c =
    mkRun (Ret tt) (<[job_key jm := crashed]> c)
      [CallUpsert (cache_kind (processing_step (job_runner jm)))
         (job_params jm) crashed]
  /\ set_exceeded_maximum_duration lib jm message cause c =
       mkRun (Ret tt) (<[job_key jm := exceeded]> c)
         [CallUpsert (cache_kind (processing_step (job_runner jm)))
            (job_params jm) exceeded]
  /\ store (set_crashed lib jm message cause c) !! job_key jm = Some crashed
  /\ store (set_exceeded_maximum_duration lib jm message cause c)
       !! job_key jm = Some exceeded
  /\ calls (set_crashed lib jm message cause c) =
       calls (handle_error lib jm
                (Custom (JobManagerCrashedError lib message cause)) c)
  /\ calls (set_exceeded_maximum_duration lib jm message cause c) =
       calls (handle_error lib jm
                (Custom (JobManagerExceededMaximumDurationError lib message
                           cause)) c)
  /\ error_code crashed = Some "JobManagerCrashedError"
  /\ error_code exceeded = Some "JobManagerExceededMaximumDurationError"
  /\ error_code crashed <> error_code exceeded
  /\ job_runner_version crashed = get_job_runner_version (job_runner jm)
  /\ job_runner_version exceeded = get_job_runner_version (job_runner jm)
  /\ dataset_git_revision crashed = revision (job_params jm)
  /\ dataset_git_revision exceeded = revision (job_params jm).
Proof.
  intros crashed exceeded. cbn.
  repeat split; try apply lookup_insert_eq. discriminate.
Qed.

(** The calls of [process] pass the retry list: none is a backfill. *)
Lemma process_calls_pass_retry_list lib jm c :
  forallb passes_fixed_retry_list (calls (process lib jm c)) = true.
Proof.
  destruct (process_calls lib jm c) as (tail & -> & Ht & _).
  destruct (compute_block_calls lib jm c) as (mid & -> & Hm).
  cbn. rewrite !forallb_app. cbn.
  rewrite (forallb_weaken is_read_or_compute _ mid), (forallb_weaken is_upsert _ tail);
    auto; intros []; cbn; congruence.
Qed.

(** C10. The retry list is the constant [ERROR_CODES_TO_RETRY], the single
    code "ClientConnectionError": whatever the job, its configuration and
    the cache store, the backfill call [backfill] and [run] make passes
    that list. *)
Theorem backfill_retry_list_is_fixed lib jm c :
  ERROR_CODES_TO_RETRY = ["ClientConnectionError"]
  /\ ds_error_codes_to_retry (dataset_state jm) = ["ClientConnectionError"]
  /\ calls (backfill lib jm c) =
       [CallBackfill (dataset_state jm) (plan lib (dataset_state jm) c)]
  /\ forallb passes_fixed_retry_list (calls (backfill lib jm c)) = true
  /\ forallb passes_fixed_retry_list (calls (run lib jm c)) = true.
Proof.
  repeat split.
  rewrite run_unfold. cbn [calls].
  rewrite forallb_app, process_calls_pass_retry_list. reflexivity.
Qed.


(** ** The claims on the example jobs *)

(** C4 on a job whose compute raises [DatasetNotFoundError]. *)
Lemma dataset_not_found_writes_no_entry_witness :
  compute (job_runner missing_dataset_job) ∅
    = Raise (DatasetNotFoundError "dataset not found")
  /\ count is_upsert (calls (run example_lib missing_dataset_job ∅)) = 0%nat
  /\ store (run example_lib missing_dataset_job ∅) = ∅
  /\ out (run example_lib missing_dataset_job ∅) = Ret false.
Proof.
  split; [reflexivity|].
  destruct (dataset_not_found_writes_no_entry example_lib missing_dataset_job
              ∅ "dataset not found" eq_refl eq_refl eq_refl eq_refl)
    as (Hn & Hs & _ & Hr).
  split; [exact Hn|]. split; [exact Hs|].
  exact (reports_returns _ _ _ _ Hr eq_refl).
Defined.

(** C4 as stated fails when the post-compute hook raises after [compute]
    has raised [DatasetNotFoundError]: the exception of the hook is the one
    handled, and an entry with the code "UnexpectedError" is written under
    the job's key, which had none. *)
Lemma failing_hook_after_missing_dataset_writes_entry :
  compute (job_runner missing_dataset_failing_post_job) ∅
    = Raise (DatasetNotFoundError "dataset not found")
  /\ (∅ : Cache) !! job_key missing_dataset_failing_post_job = None
  /\ error_code
       <$> (store (run example_lib missing_dataset_failing_post_job ∅)
              !! job_key missing_dataset_failing_post_job)
     = Some (Some "UnexpectedError")
  /\ count is_upsert
       (calls (run example_lib missing_dataset_failing_post_job ∅)) = 1%nat
  /\ ~ writes_no_entry_and_fails example_lib missing_dataset_failing_post_job ∅.
Proof.
  split; [reflexivity|]. split; [reflexivity|].
  split; [vm_compute; reflexivity|]. split; [vm_compute; reflexivity|].
  intros (H & _). vm_compute in H. discriminate.
Qed.

(** C3 on a job whose compute raises the error of its parent. *)
Lemma cached_artifact_error_is_copied_witness :
  cache_with_parent !! ("config-info", parent_params) = Some parent_entry
  /\ compute (job_runner failed_parent_job) cache_with_parent
     = Raise parent_error
  /\ exists e,
       store (run example_lib failed_parent_job cache_with_parent)
         !! job_key failed_parent_job = Some e
       /\ content e = content parent_entry
       /\ http_status e = 404
       /\ error_code e = Some "ConfigNamesError"
       /\ In ("copied_from_artifact",
              JDict [("kind", JStr "config-info");
                     ("dataset", JStr "user/dataset");
                     ("config", JStr "default"); ("split", JNull)])
             (details_fields (details e))
       /\ out (run example_lib failed_parent_job cache_with_parent) = Ret false.
Proof.
  assert (Hp : cache_with_parent !! ("config-info", parent_params)
               = Some parent_entry) by (vm_compute; reflexivity).
  split; [exact Hp|]. split; [reflexivity|].
  destruct (cached_artifact_error_is_copied example_lib failed_parent_job
              cache_with_parent "the previous step failed" "config-info"
              "user/dataset" "0123abcd" (Some "default") None parent_entry
              eq_refl eq_refl Hp eq_refl eq_refl)
    as (e & _ & Hread & _ & Hc & Hs & He & _ & Hin & _ & _ & _ & Hr).
  exists e. split; [exact Hread|]. split; [exact Hc|]. split; [exact Hs|].
  split; [exact He|]. split; [exact Hin|].
  exact (reports_returns _ _ _ _ Hr eq_refl).
Defined.

(** C3 as stated fails when the post-compute hook raises after [compute]
    has raised the error of the parent: the entry written is that of the
    exception of the hook, with the code "UnexpectedError", not a copy of
    the parent's. *)
Lemma failing_hook_replaces_error_of_parent :
  cache_with_parent !! ("config-info", parent_params) = Some parent_entry
  /\ compute (job_runner failed_parent_failing_post_job) cache_with_parent
     = Raise parent_error
  /\ error_code
       <$> (store (run example_lib failed_parent_failing_post_job
                     cache_with_parent)
              !! job_key failed_parent_failing_post_job)
     = Some (Some "UnexpectedError")
  /\ ~ copies_error_of example_lib failed_parent_failing_post_job
         cache_with_parent parent_entry.
Proof.
  split; [vm_compute; reflexivity|]. split; [reflexivity|].
  assert (H : error_code
                <$> (store (run example_lib failed_parent_failing_post_job
                              cache_with_parent)
                       !! job_key failed_parent_failing_post_job)
              = Some (Some "UnexpectedError")) by (vm_compute; reflexivity).
  split; [exact H|].
  intros ((e & He & _ & _ & Hcode) & _). rewrite He in H. cbn in H.
  rewrite Hcode in H. discriminate.
Qed.

(** C6 on a job that computes four bytes. *)
Lemma successful_job_upserts_ok_entry_witness :
  compute (job_runner small_job) ∅ = Ret small_result
  /\ orjson_dumps example_lib (result_content small_result)
     = Ret (quote +:+ "ok" +:+ quote)
  /\ store (run example_lib small_job ∅) !! job_key small_job
     = Some (mkCacheEntry (JStr "ok") 200 None None 2 "0123abcd"
               (Some (1 # 1)%Q))
  /\ out (run example_lib small_job ∅) = Ret true.
Proof.
  split; [reflexivity|]. split; [reflexivity|].
  destruct (successful_job_upserts_ok_entry example_lib small_job ∅
              small_result (quote +:+ "ok" +:+ quote)
              eq_refl eq_refl eq_refl eq_refl ltac:(vm_compute; discriminate)
              eq_refl)
    as (e & Hs & _ & _ & _ & _ & _ & _ & _ & _ & Hr).
  split; [vm_compute; reflexivity|].
  exact (reports_returns _ _ _ _ Hr eq_refl).
Defined.

(** C6 as stated fails on a job whose [compute] succeeds and that is not
    short-circuited, but whose content is over the limit: the entry written
    is the error entry of [TooBigContentError] and [run] returns [False]. *)
Lemma oversized_result_is_not_a_success :
  compute (job_runner big_job) ∅ = Ret big_result
  /\ out (parallel_check example_lib big_job ∅) = Ret tt
  /\ error_code
       <$> (store (run example_lib big_job ∅) !! job_key big_job)
     = Some (Some "TooBigContentError")
  /\ out (run example_lib big_job ∅) = Ret false
  /\ ~ upserts_ok_entry_and_succeeds example_lib big_job ∅ big_result.
Proof.
  split; [reflexivity|]. split; [reflexivity|].
  split; [vm_compute; reflexivity|]. split; [vm_compute; reflexivity|].
  intros (_ & H). vm_compute in H. discriminate.
Qed.

(** C5 on a job that computes eighteen bytes under a limit of ten. *)
Lemma oversized_content_is_not_stored_witness :
  orjson_dumps example_lib (result_content big_result)
    = Ret (quote +:+ "0123456789abcdef" +:+ quote)
  /\ store (run example_lib big_job ∅) !! job_key big_job
     = Some (mkCacheEntry
               (JDict [("error",
                        JStr "The computed response content exceeds the supported size in bytes (10).")])
               500 (Some "TooBigContentError")
               (Some (JDict [("error",
                        JStr "The computed response content exceeds the supported size in bytes (10).");
                        ("cause_exception", JNull)]))
               2 "0123abcd" None)
  /\ out (run example_lib big_job ∅) = Ret false.
Proof.
  split; [reflexivity|].
  destruct (oversized_content_is_not_stored example_lib big_job ∅ big_result
              (quote +:+ "0123456789abcdef" +:+ quote)
              eq_refl eq_refl eq_refl eq_refl eq_refl eq_refl)
    as (_ & Hread & _ & _ & _ & _ & _ & Hr).
  split; [exact Hread|].
  exact (reports_returns _ _ _ _ Hr eq_refl).
Defined.

(** C5 as stated fails when the post-compute hook raises after an oversized
    result: the entry written carries the code "UnexpectedError" of the
    exception of the hook, not that of [TooBigContentError]. *)
Lemma failing_hook_replaces_too_big_content :
  compute (job_runner big_failing_post_job) ∅ = Ret big_result
  /\ size_check example_lib big_failing_post_job big_result
     = Raise (Custom (TooBigContentError example_lib
                        (too_big_message big_failing_post_job)))
  /\ error_code
       <$> (store (run example_lib big_failing_post_job ∅)
              !! job_key big_failing_post_job)
     = Some (Some "UnexpectedError")
  /\ ~ records_too_big_content example_lib big_failing_post_job ∅.
Proof.
  split; [reflexivity|]. split; [reflexivity|].
  split; [vm_compute; reflexivity|].
  intros (H & _). vm_compute in H. discriminate.
Qed.

(** C1 as stated fails when the backfill call raises: the job has
    succeeded and its entry is written, yet [run] returns no boolean; the
    exception escapes. *)
Lemma backfill_failure_escapes_run :
  out (process failing_backfill_lib small_job ∅) = Ret true
  /\ count is_backfill (calls (run failing_backfill_lib small_job ∅)) = 1%nat
  /\ out (run failing_backfill_lib small_job ∅)
     = Raise (OtherException "queue unreachable")
  /\ ~ backfills_once_and_returns failing_backfill_lib small_job ∅.
Proof.
  split; [vm_compute; reflexivity|]. split; [vm_compute; reflexivity|].
  split; [vm_compute; reflexivity|].
  intros (_ & b & H). vm_compute in H. discriminate.
Qed.

(** C2 on a job whose parallel counterpart has a fresh entry: the amended
    statement applies. *)
Lemma fresh_parallel_response_skips_compute_witness :
  cache_with_parallel
    !! (parallel_job_type example_parallel, job_params parallel_job)
    = Some parallel_entry
  /\ count is_compute (calls (run example_lib parallel_job cache_with_parallel))
     = 0%nat
  /\ out (run example_lib parallel_job cache_with_parallel) = Ret false.
Proof.
  assert (H : cache_with_parallel
                !! (parallel_job_type example_parallel, job_params parallel_job)
              = Some parallel_entry) by (vm_compute; reflexivity).
  split; [exact H|].
  destruct (fresh_parallel_response_skips_compute example_lib parallel_job
              cache_with_parallel example_parallel parallel_entry (1 # 1)%Q
              eq_refl eq_refl H eq_refl eq_refl eq_refl (Qeq_refl _) eq_refl
              eq_refl)
    as (Hc & _ & _ & _ & Hr).
  split; [exact Hc|].
  exact (reports_returns _ _ _ _ Hr eq_refl).
Defined.

(** C2 as stated fails on the same job: the parallel response is fresh, yet
    the job is not skipped without failure.  An entry with the error code
    "ResponseAlreadyComputedError" is written under the job's key, which had
    none, and [run] returns [False]. *)
Lemma fresh_parallel_response_is_recorded_as_error :
  parallel_response_is_fresh parallel_job cache_with_parallel
  /\ cache_with_parallel !! job_key parallel_job = None
  /\ error_code
       <$> (store (run example_lib parallel_job cache_with_parallel)
              !! job_key parallel_job)
     = Some (Some "ResponseAlreadyComputedError")
  /\ count is_upsert (calls (run example_lib parallel_job cache_with_parallel))
     = 1%nat
  /\ out (run example_lib parallel_job cache_with_parallel) = Ret false
  /\ ~ skipped_not_failed example_lib parallel_job cache_with_parallel.
Proof.
  split.
  { exists example_parallel, parallel_entry, (1 # 1)%Q.
    repeat split; vm_compute; reflexivity. }
  split; [vm_compute; reflexivity|].
  split; [vm_compute; reflexivity|].
  split; [vm_compute; reflexivity|].
  split; [vm_compute; reflexivity|].
  intros (_ & _ & _ & H). apply H. vm_compute. reflexivity.
Qed.
(** ** Further properties of the job manager *)

(** The run of the parallel check on one kind: a single read, then the
    exception or nothing. *)
Lemma raise_if_parallel_response_exists_run lib jm kind v c :
  raise_if_parallel_response_exists lib jm kind v c =
    mkRun (if fresh_in_cache jm kind v c
           then Raise (Custom (ResponseAlreadyComputedError lib
                                 (already_computed_message kind)))
           else Ret tt)
      c [CallGetResponse kind (job_params jm)].
Proof.
  unfold raise_if_parallel_response_exists,
    get_response_without_content_params, fresh_in_cache, try_except, bind,
    call. cbn.
  destruct (c !! (kind, job_params jm)) as [e|]; cbn; [|reflexivity].
  destruct (_ && _); reflexivity.
Qed.

Lemma fresh_in_cache_true jm kind v c :
  fresh_in_cache jm kind v c = true <->
  exists e q,
    c !! (kind, job_params jm) = Some e
    /\ http_status e = HTTPStatus_OK
    /\ job_runner_version e = v
    /\ progress e = Some q /\ Qeq q 1
    /\ dataset_git_revision e = revision (job_params jm).
Proof.
  unfold fresh_in_cache.
  destruct (c !! (kind, job_params jm)) as [e|].
  - rewrite !andb_true_iff, !Z.eqb_eq, String.eqb_eq. split.
    + intros [[[Hs Hv] Hp] Hr]. unfold progress_is_complete in Hp.
      destruct (progress e) as [q|] eqn:Hq; [|discriminate].
      exists e, q. apply Qeq_bool_iff in Hp. auto 10.
    + intros (e' & q & He & Hs & Hv & Hp & Hq & Hr). inversion He; subst e'.
      rewrite Hp. cbn. apply Qeq_bool_iff in Hq. auto.
  - split; [discriminate|]. intros (e & q & He & _). discriminate.
Qed.

Lemma parallel_fresh_true jm c :
  parallel_fresh jm c = true <-> parallel_response_is_fresh jm c.
Proof.
  unfold parallel_fresh, parallel_response_is_fresh.
  destruct (get_parallel_job_runner (job_runner jm)) as [p|].
  - rewrite fresh_in_cache_true. split.
    + intros (e & q & H). exists p, e, q. tauto.
    + intros (p' & e & q & Hp & H). inversion Hp; subst p'. exists e, q. tauto.
  - split; [discriminate|]. intros (p & e & q & Hp & _). discriminate.
Qed.

(** The run of the parallel check of [process]. *)
Lemma parallel_check_run lib jm c :
  store (parallel_check lib jm c) = c
  /\ forallb is_get_response (calls (parallel_check lib jm c)) = true
  /\ (length (calls (parallel_check lib jm c)) <= 1)%nat
  /\ (parallel_fresh jm c = true ->
      exists e, out (parallel_check lib jm c) = Raise e)
  /\ (parallel_fresh jm c = false -> out (parallel_check lib jm c) = Ret tt).
Proof.
  unfold parallel_check, parallel_fresh.
  destruct (get_parallel_job_runner (job_runner jm)) as [p|].
  - rewrite raise_if_parallel_response_exists_run. cbn.
    repeat split; auto; intros ->; eauto.
  - cbn. repeat split; auto. discriminate.
Qed.

(** The calls of the compute block, exactly. *)
Lemma compute_block_calls_exact lib jm c :
  calls (compute_block lib jm c) =
    CallPreCompute
    :: match pre_compute (job_runner jm) c with
       | Ret _ =>
           calls (parallel_check lib jm c)
           ++ (if parallel_fresh jm c then [] else [CallCompute])
       | Raise _ => []
       end
    ++ [CallPostCompute].
Proof.
  destruct (parallel_check_run lib jm c) as (Hs & _ & _ & Hf & Hn).
  unfold compute_block. rewrite try_finally_calls.
  unfold bind, call. cbn.
  destruct (pre_compute (job_runner jm) c) as [u|e]; cbn; [|reflexivity].
  destruct (parallel_fresh jm c).
  - destruct (Hf eq_refl) as [e He]. rewrite He. cbn. rewrite app_nil_r.
    reflexivity.
  - rewrite (Hn eq_refl). cbn. rewrite Hs.
    destruct (compute (job_runner jm) c) as [r|e]; cbn; [|reflexivity].
    destruct (orjson_dumps lib (result_content r)) as [bytes|e]; cbn;
      [|rewrite ?app_nil_r; reflexivity].
    destruct (_ >? _)%Z; cbn; rewrite ?app_nil_r; reflexivity.
Qed.

(** What [process] adds to the compute block: nothing, or one upsert for
    the job. *)
Lemma process_tail lib jm c :
  (calls (process lib jm c) = calls (compute_block lib jm c)
   /\ store (process lib jm c) = c)
  \/ exists e,
       calls (process lib jm c) =
         calls (compute_block lib jm c)
         ++ [CallUpsert (cache_kind (processing_step (job_runner jm)))
               (job_params jm) e]
       /\ store (process lib jm c) = <[job_key jm := e]> c
       /\ job_runner_version e = get_job_runner_version (job_runner jm)
       /\ dataset_git_revision e = revision (job_params jm).
Proof.
  destruct (out (compute_block lib jm c)) as [r|err] eqn:H.
  - rewrite (process_success _ _ _ _ H). right. eexists. cbn. eauto.
  - rewrite (process_failure _ _ _ _ H).
    pose proof (handle_error_cases lib jm err c) as Hh.
    destruct err; cbn zeta in Hh; rewrite Hh; cbn [out store calls];
      try (right; eexists; cbn; eauto; fail).
    left. rewrite app_nil_r. auto.
Qed.

(** X1. [setup] accepts a job manager exactly when the job type of its
    processing step and the submitted job type are both the job runner's.
    The step is checked first: when it does not match, the [ValueError]
    names the step's job type whatever the submitted one is. *)
Theorem setup_accepts_matching_job_types jm :
  (setup jm = Ret tt <->
   step_job_type (processing_step (job_runner jm)) = get_job_type (job_runner jm)
   /\ job_type jm = get_job_type (job_runner jm))
  /\ (step_job_type (processing_step (job_runner jm))
        <> get_job_type (job_runner jm) ->
      setup jm = Raise (OtherException (step_type_message jm)))
  /\ (step_job_type (processing_step (job_runner jm))
        = get_job_type (job_runner jm) ->
      job_type jm <> get_job_type (job_runner jm) ->
      setup jm = Raise (OtherException (submitted_type_message jm))).
Proof.
  unfold setup.
  destruct (String.eqb_spec (step_job_type (processing_step (job_runner jm)))
              (get_job_type (job_runner jm))) as [Hs|Hs]; cbn.
  - destruct (String.eqb_spec (job_type jm) (get_job_type (job_runner jm)))
      as [Hj|Hj]; cbn.
    + split; [split; auto|]. split; intros; congruence.
    + split; [split; [discriminate|intros []; congruence]|].
      split; [congruence|reflexivity].
  - split; [split; [discriminate|intros []; congruence]|].
    split; [reflexivity|congruence].
Qed.

(** X2. [raise_if_parallel_response_exists] makes one read of the cache
    store and writes nothing.  It raises [ResponseAlreadyComputedError]
    exactly when the entry exists with status OK, the given version,
    progress 1.0 and the job's revision; in every other case, and notably
    when the entry is missing ([DoesNotExist]), it returns. *)
Theorem raise_if_parallel_response_exists_iff_fresh lib jm kind v c :
  let r := raise_if_parallel_response_exists lib jm kind v c in
  let error := Custom (ResponseAlreadyComputedError lib
                         (already_computed_message kind)) in
  store r = c
  /\ calls r = [CallGetResponse kind (job_params jm)]
  /\ (out r = Ret tt \/ out r = Raise error)
  /\ (out r = Raise error <->
      exists e q,
        c !! (kind, job_params jm) = Some e
        /\ http_status e = HTTPStatus_OK
        /\ job_runner_version e = v
        /\ progress e = Some q /\ Qeq q 1
        /\ dataset_git_revision e = revision (job_params jm))
  /\ (c !! (kind, job_params jm) = None -> out r = Ret tt).
Proof.
  cbv zeta. rewrite raise_if_parallel_response_exists_run. cbn [out store calls].
  rewrite <- fresh_in_cache_true.
  split; [reflexivity|]. split; [reflexivity|].
  destruct (fresh_in_cache jm kind v c) eqn:Hf.
  - split; [auto|]. split; [tauto|].
    intros Hn. unfold fresh_in_cache in Hf. rewrite Hn in Hf. discriminate.
  - split; [auto|]. split; [|reflexivity]. split; discriminate.
Qed.

Lemma count_le_length f l : (count f l <= length l)%nat.
Proof.
  unfold count. induction l as [|ev l IH]; cbn; [lia|].
  destruct (f ev); cbn; lia.
Qed.

Lemma count_all (f : Event -> bool) l :
  forallb f l = true -> count f l = length l.
Proof. intros H. unfold count. rewrite (filter_all f l H). reflexivity. Qed.

(** The calls of [run], in order: the pre-compute hook; when it returned,
    the reads of the parallel check and, unless the check raised, the
    compute call; the post-compute hook; at most one upsert; the backfill
    call. *)
Lemma run_calls_exact lib jm c :
  exists par tail requests,
    calls (run lib jm c) =
      [CallPreCompute]
      ++ match pre_compute (job_runner jm) c with
         | Ret _ => par ++ (if parallel_fresh jm c then [] else [CallCompute])
         | Raise _ => []
         end
      ++ [CallPostCompute] ++ tail
      ++ [CallBackfill (dataset_state jm) requests]
    /\ forallb is_get_response par = true /\ (length par <= 1)%nat
    /\ forallb is_upsert tail = true /\ (length tail <= 1)%nat.
Proof.
  destruct (parallel_check_run lib jm c) as (_ & Hg & Hl & _).
  exists (calls (parallel_check lib jm c)).
  rewrite run_unfold. cbn [calls].
  destruct (process_tail lib jm c) as [[-> _]|(e & -> & _)];
    rewrite compute_block_calls_exact.
  - exists [], (plan lib (dataset_state jm) (store (process lib jm c))).
    split; [cbn; rewrite <- !app_assoc; reflexivity|].
    split; [exact Hg|split; [exact Hl|split; [reflexivity|cbn; lia]]].
  - eexists [_], (plan lib (dataset_state jm) (store (process lib jm c))).
    split; [cbn; rewrite <- !app_assoc; reflexivity|].
    split; [exact Hg|split; [exact Hl|split; [reflexivity|cbn; lia]]].
Qed.

Lemma get_response_not_compute ev :
  is_get_response ev = true -> is_compute ev = false.
Proof. destruct ev; cbn; congruence. Qed.

Lemma get_response_not_upsert ev :
  is_get_response ev = true -> is_upsert ev = false.
Proof. destruct ev; cbn; congruence. Qed.

Lemma get_response_not_pre_compute ev :
  is_get_response ev = true -> is_pre_compute ev = false.
Proof. destruct ev; cbn; congruence. Qed.

Lemma upsert_not_compute ev : is_upsert ev = true -> is_compute ev = false.
Proof. destruct ev; cbn; congruence. Qed.

Lemma upsert_not_get_response ev :
  is_upsert ev = true -> is_get_response ev = false.
Proof. destruct ev; cbn; congruence. Qed.

Lemma upsert_not_pre_compute ev :
  is_upsert ev = true -> is_pre_compute ev = false.
Proof. destruct ev; cbn; congruence. Qed.

(** How many times [run] calls [compute]. *)
Lemma run_count_compute lib jm c :
  count is_compute (calls (run lib jm c)) =
    match pre_compute (job_runner jm) c with
    | Ret _ => if parallel_fresh jm c then 0%nat else 1%nat
    | Raise _ => 0%nat
    end.
Proof.
  destruct (run_calls_exact lib jm c)
    as (par & tail & requests & -> & Hp & _ & Ht & _).
  rewrite !count_app, (count_none _ _ tail upsert_not_compute Ht).
  destruct (pre_compute (job_runner jm) c); [|reflexivity].
  rewrite count_app, (count_none _ _ par get_response_not_compute Hp).
  destruct (parallel_fresh jm c); reflexivity.
Qed.

(** X3. When the pre-compute hook returns, [run] calls [compute] exactly
    once, unless the parallel response is fresh, the one case in which it
    does not call it at all. *)
Theorem compute_skipped_only_when_parallel_response_fresh lib jm c :
  pre_compute (job_runner jm) c = Ret tt ->
  (count is_compute (calls (run lib jm c)) = 0%nat
   <-> parallel_response_is_fresh jm c)
  /\ (~ parallel_response_is_fresh jm c ->
      count is_compute (calls (run lib jm c)) = 1%nat).
Proof.
  intros Hpre. rewrite run_count_compute, Hpre, <- parallel_fresh_true.
  destruct (parallel_fresh jm c); split; try tauto; try congruence.
  split; [discriminate|discriminate].
Qed.

(** X14. Whatever happens, [run] calls the pre-compute hook exactly once,
    and reads the cache store, calls [compute] and upserts at most once
    each. *)
Theorem run_calls_each_collaborator_at_most_once lib jm c :
  count is_pre_compute (calls (run lib jm c)) = 1%nat
  /\ (count is_get_response (calls (run lib jm c)) <= 1)%nat
  /\ (count is_compute (calls (run lib jm c)) <= 1)%nat
  /\ (count is_upsert (calls (run lib jm c)) <= 1)%nat.
Proof.
  split; [|split; [|split]].
  - destruct (run_calls_exact lib jm c)
      as (par & tail & requests & -> & Hp & _ & Ht & _).
    rewrite !count_app, (count_none _ _ tail upsert_not_pre_compute Ht).
    destruct (pre_compute (job_runner jm) c); [|reflexivity].
    rewrite count_app, (count_none _ _ par get_response_not_pre_compute Hp).
    destruct (parallel_fresh jm c); reflexivity.
  - destruct (run_calls_exact lib jm c)
      as (par & tail & requests & -> & Hp & Hl & Ht & _).
    rewrite !count_app, (count_none _ _ tail upsert_not_get_response Ht).
    destruct (pre_compute (job_runner jm) c); [|cbn; lia].
    rewrite count_app, (count_all _ par Hp).
    destruct (parallel_fresh jm c); cbn; lia.
  - rewrite run_count_compute.
    destruct (pre_compute (job_runner jm) c); [|lia].
    destruct (parallel_fresh jm c); lia.
  - destruct (run_calls_exact lib jm c)
      as (par & tail & requests & -> & Hp & _ & Ht & Hl).
    rewrite !count_app, (count_all _ tail Ht).
    destruct (pre_compute (job_runner jm) c); [|cbn; lia].
    rewrite count_app, (count_none _ _ par get_response_not_upsert Hp).
    destruct (parallel_fresh jm c); cbn; lia.
Qed.

(** X7. When the pre-compute hook raises, [run] reads nothing from the
    cache store and does not call [compute], but still calls the
    post-compute hook; if that one returns, the exception of the
    pre-compute hook is the one [process] handles, and [run] reports
    failure. *)
Theorem pre_compute_failure_skips_compute lib jm c e :
  pre_compute (job_runner jm) c = Raise e ->
  calls (compute_block lib jm c) = [CallPreCompute; CallPostCompute]
  /\ count is_compute (calls (run lib jm c)) = 0%nat
  /\ count is_get_response (calls (run lib jm c)) = 0%nat
  /\ (post_compute (job_runner jm) c = Ret tt ->
      out (compute_block lib jm c) = Raise e
      /\ store (run lib jm c) = store (handle_error lib jm e c)
      /\ reports lib jm c false).
Proof.
  intros Hpre. split; [|split; [|split]].
  - rewrite compute_block_calls_exact, Hpre. reflexivity.
  - rewrite run_count_compute, Hpre. reflexivity.
  - destruct (run_calls_exact lib jm c)
      as (par & tail & requests & -> & _ & _ & Ht & _).
    rewrite Hpre, !count_app, (count_none _ _ tail upsert_not_get_response Ht).
    reflexivity.
  - intros Hpost.
    assert (Hb : out (compute_block lib jm c) = Raise e).
    { unfold compute_block, try_finally, bind, call. cbn.
      rewrite Hpre. cbn. rewrite Hpost. reflexivity. }
    split; [exact Hb|].
    destruct (run_failure lib jm c e Hb) as (Hs & _ & Hr).
    split; [exact Hs|exact Hr].
Qed.

(** X6. When the post-compute hook raises, its exception replaces the
    outcome of the compute block, whatever [compute] returned or raised:
    [run] reports failure and the only write is the one the handler makes
    for the exception of the hook. *)
Theorem post_compute_failure_replaces_outcome lib jm c e :
  post_compute (job_runner jm) c = Raise e ->
  out (compute_block lib jm c) = Raise e
  /\ reports lib jm c false
  /\ store (run lib jm c) = store (handle_error lib jm e c)
  /\ List.filter is_upsert (calls (run lib jm c))
     = calls (handle_error lib jm e c).
Proof.
  intros Hpost.
  pose proof (compute_block_post_compute_raises lib jm c e Hpost) as Hb.
  destruct (run_failure lib jm c e Hb) as (Hs & Hu & Hr).
  split; [exact Hb|]. split; [exact Hr|]. split; [exact Hs|exact Hu].
Qed.

(** X4. A [CustomError] that leaves the compute block keeps its own code
    and status: [run] upserts its rendering under the job's key, with its
    [code] as error code and its [status_code] as HTTP status, and reports
    failure. *)
Theorem custom_error_keeps_code_and_status lib jm c e :
  out (compute_block lib jm c) = Raise (Custom e) ->
  exists entry,
    store (run lib jm c) !! job_key jm = Some entry
    /\ store (run lib jm c) = <[job_key jm := entry]> c
    /\ error_code entry = Some (code e)
    /\ http_status entry = status_code e
    /\ content entry = as_response lib e
    /\ details entry = Some (as_response_with_cause lib e)
    /\ progress entry = None
    /\ reports lib jm c false.
Proof.
  intros H. destruct (run_custom_error lib jm c e H) as (Hs & _ & Ho).
  exists (error_entry lib jm e). rewrite Hs.
  split; [apply lookup_insert_eq|]. repeat split; apply Ho.
Qed.

(** X5. An exception outside the [CustomError] hierarchy that leaves the
    compute block (a [DoesNotExist] raised by [compute] included) is wrapped
    in an [UnexpectedError] whose message is [str(err)] and whose cause is
    the exception itself; [run] upserts its rendering with the code
    "UnexpectedError" and reports failure. *)
Theorem plain_exception_is_wrapped_as_unexpected lib jm c err :
  out (compute_block lib jm c) = Raise err ->
  is_plain_exception err = true ->
  let e := UnexpectedError lib (str err) err in
  store (run lib jm c) = <[job_key jm := error_entry lib jm e]> c
  /\ store (run lib jm c) !! job_key jm = Some (error_entry lib jm e)
  /\ error_code (error_entry lib jm e) = Some "UnexpectedError"
  /\ message e = str err
  /\ cause e = Some err
  /\ reports lib jm c false.
Proof.
  intros H Hplain e.
  destruct (run_failure lib jm c err H) as (Hs & _ & Hr). rewrite Hs.
  pose proof (handle_error_cases lib jm err c) as Hh.
  destruct err; try discriminate; cbn zeta in Hh; rewrite Hh;
    cbn [out store calls]; (split; [reflexivity|]);
    (split; [apply lookup_insert_eq|]); repeat split; apply Hr.
Qed.

(** The cache store [run] leaves: the one it found, or that one with a new
    entry under the job's key, carrying the job runner's version and the
    job's revision. *)
Lemma run_store_cases lib jm c :
  store (run lib jm c) = c
  \/ exists e,
       store (run lib jm c) = <[job_key jm := e]> c
       /\ job_runner_version e = get_job_runner_version (job_runner jm)
       /\ dataset_git_revision e = revision (job_params jm).
Proof.
  rewrite run_unfold. cbn [store].
  destruct (process_tail lib jm c) as [[_ ->]|(e & _ & -> & Hv & Hr)]; eauto.
Qed.

(** X8. [run] touches no key of the cache store but the job's own: every
    other entry is as before, none is removed, and at the job's key the
    store is as before or holds a new entry. *)
Theorem run_touches_only_the_job_key lib jm c :
  delete (job_key jm) (store (run lib jm c)) = delete (job_key jm) c
  /\ (forall k, k <> job_key jm -> store (run lib jm c) !! k = c !! k)
  /\ (forall k, is_Some (c !! k) -> is_Some (store (run lib jm c) !! k))
  /\ (store (run lib jm c) = c
      \/ exists e, store (run lib jm c) = <[job_key jm := e]> c).
Proof.
  destruct (run_store_cases lib jm c) as [->|(e & -> & _)].
  - repeat split; auto.
  - split; [apply delete_insert_eq|].
    split; [intros k Hk; apply lookup_insert_ne; congruence|].
    split; [|eauto].
    intros k Hs. destruct (decide (job_key jm = k)) as [<-|Hk].
    + rewrite lookup_insert_eq. eauto.
    + rewrite lookup_insert_ne by exact Hk. exact Hs.
Qed.

Lemma Forall_upsert_of_job_other jm (f : Event -> bool) l :
  (forall ev, f ev = true -> is_upsert ev = false) ->
  forallb f l = true -> Forall (upsert_of_job jm) l.
Proof.
  intros Hf. induction l as [|ev l IH]; cbn; [constructor|].
  intros H. apply andb_prop in H as [Hev Hl]. constructor; [|auto].
  specialize (Hf _ Hev). destruct ev; cbn in *; auto; discriminate.
Qed.

(** X9. Every upsert [run] makes is made for the job: under the cache kind
    of its processing step and its parameters, with the job runner's
    version and the job's revision, on the success path as on every error
    path. *)
Theorem upserts_carry_job_identity lib jm c :
  Forall (upsert_of_job jm) (calls (run lib jm c)).
Proof.
  rewrite run_unfold. cbn [calls].
  apply Forall_app. split; [|repeat constructor].
  assert (Hb : Forall (upsert_of_job jm) (calls (compute_block lib jm c))).
  { destruct (compute_block_calls lib jm c) as (mid & -> & Hm).
    constructor; [exact I|]. apply Forall_app. split; [|repeat constructor].
    exact (Forall_upsert_of_job_other jm _ mid read_or_compute_not_upsert Hm). }
  destruct (process_tail lib jm c) as [[-> _]|(e & -> & _ & Hv & Hr)];
    [exact Hb|].
  apply Forall_app. split; [exact Hb|]. repeat constructor; auto.
Qed.

(** X10. [run] returns [True] only when an OK entry has been stored: the
    hooks returned, [compute] returned a result that the serialiser
    rendered within the size limit, and the cache store now holds the entry
    built from that result under the job's key. *)
Theorem run_true_only_after_ok_entry lib jm c :
  out (run lib jm c) = Ret true ->
  exists job_result,
    compute (job_runner jm) c = Ret job_result
    /\ store (run lib jm c) = <[job_key jm := ok_entry jm job_result]> c
    /\ store (run lib jm c) !! job_key jm = Some (ok_entry jm job_result)
    /\ (exists bytes,
          orjson_dumps lib (result_content job_result) = Ret bytes
          /\ (Z.of_nat (String.length bytes)
              <= content_max_bytes (worker_config jm))%Z)
    /\ pre_compute (job_runner jm) c = Ret tt
    /\ post_compute (job_runner jm) c = Ret tt.
Proof.
  rewrite run_unfold. cbn [out store].
  destruct (out (compute_block lib jm c)) as [r|e] eqn:H.
  - intros _. rewrite (process_success _ _ _ _ H). cbn [store].
    apply compute_block_Ret in H as (Hpre & _ & Hc & Hsz & Hpost).
    exists r. rewrite lookup_insert_eq. repeat split; auto.
  - rewrite (process_failure _ _ _ _ H).
    destruct (handle_error_shape lib jm e c) as [-> _]. cbn [result_of].
    unfold after_backfill. destruct (backfill_fault _ _ _); discriminate.
Qed.

(** X11. The recovery entry points overwrite: after either of them the
    job's key holds its error entry whatever the key held before, be it the
    entry of the other entry point or the entry of a job that ran to its
    end; every other key is left alone. *)
Theorem recovery_entry_points_overwrite lib jm c m1 k1 m2 k2 :
  store (set_crashed lib jm m1 k1
           (store (set_exceeded_maximum_duration lib jm m2 k2 c)))
    = store (set_crashed lib jm m1 k1 c)
  /\ store (set_exceeded_maximum_duration lib jm m2 k2
              (store (set_crashed lib jm m1 k1 c)))
       = store (set_exceeded_maximum_duration lib jm m2 k2 c)
  /\ store (set_crashed lib jm m1 k1 (store (run lib jm c)))
       = store (set_crashed lib jm m1 k1 c)
  /\ store (set_exceeded_maximum_duration lib jm m2 k2 (store (run lib jm c)))
       = store (set_exceeded_maximum_duration lib jm m2 k2 c)
  /\ delete (job_key jm) (store (set_crashed lib jm m1 k1 c))
       = delete (job_key jm) c
  /\ delete (job_key jm) (store (set_exceeded_maximum_duration lib jm m2 k2 c))
       = delete (job_key jm) c.
Proof.
  unfold set_crashed, set_exceeded_maximum_duration, upsert_response_params.
  cbn [store]. fold (job_key jm).
  split; [apply insert_insert_eq|]. split; [apply insert_insert_eq|].
  split; [|split; [|split; apply delete_insert_eq]].
  - destruct (run_store_cases lib jm c) as [->|(e & -> & _)];
      [reflexivity|apply insert_insert_eq].
  - destruct (run_store_cases lib jm c) as [->|(e & -> & _)];
      [reflexivity|apply insert_insert_eq].
Qed.

(** X12. Two job managers on the same job parameters, the second naming as
    its parallel counterpart the cache kind and version the first writes:
    once the first has run to success, the second finds the parallel
    response fresh exactly when the first reported progress 1.0, and then
    makes no compute call. *)
Theorem success_short_circuits_parallel_job lib jmA jmB c p r :
  get_parallel_job_runner (job_runner jmB) = Some p ->
  parallel_job_type p = cache_kind (processing_step (job_runner jmA)) ->
  parallel_job_runner_version p = get_job_runner_version (job_runner jmA) ->
  job_params jmA = job_params jmB ->
  out (compute_block lib jmA c) = Ret r ->
  (parallel_response_is_fresh jmB (store (run lib jmA c))
   <-> Qeq (result_progress r) 1)
  /\ (Qeq (result_progress r) 1 ->
      pre_compute (job_runner jmB) (store (run lib jmA c)) = Ret tt ->
      count is_compute (calls (run lib jmB (store (run lib jmA c)))) = 0%nat).
Proof.
  intros Hp Hk Hv Hparams Hb.
  assert (Hs : store (run lib jmA c) = <[job_key jmA := ok_entry jmA r]> c).
  { rewrite run_store, (process_success _ _ _ _ Hb). reflexivity. }
  assert (Hfresh : parallel_response_is_fresh jmB (store (run lib jmA c))
                   <-> Qeq (result_progress r) 1).
  { rewrite Hs. unfold parallel_response_is_fresh. split.
    - intros (p' & e & q & Hp' & He & _ & _ & Hpr & Hq & _).
      rewrite Hp in Hp'. inversion Hp'; subst p'.
      rewrite Hk, <- Hparams in He. fold (job_key jmA) in He.
      rewrite lookup_insert_eq in He. inversion He; subst e.
      cbn in Hpr. inversion Hpr; subst q. exact Hq.
    - intros Hq. exists p, (ok_entry jmA r), (result_progress r).
      rewrite Hk, <- Hparams. fold (job_key jmA).
      rewrite lookup_insert_eq, Hv. repeat split; auto. }
  split; [exact Hfresh|].
  intros Hq Hpre. rewrite run_count_compute, Hpre.
  apply Hfresh, parallel_fresh_true in Hq. rewrite Hq. reflexivity.
Qed.

(** X13. The size limit is inclusive.  With hooks that return, a job the
    parallel check lets pass and a result the serialiser renders as
    [bytes], [process] returns [True], and [run] reports success, exactly
    when [bytes] is at most [content_max_bytes] long; [process] returns
    [False], and [run] reports failure, exactly when it is longer. *)
Theorem size_limit_is_inclusive lib jm c job_result bytes :
  pre_compute (job_runner jm) c = Ret tt ->
  out (parallel_check lib jm c) = Ret tt ->
  compute (job_runner jm) c = Ret job_result ->
  orjson_dumps lib (result_content job_result) = Ret bytes ->
  post_compute (job_runner jm) c = Ret tt ->
  (reports lib jm c true <->
   (Z.of_nat (String.length bytes) <= content_max_bytes (worker_config jm))%Z)
  /\ (reports lib jm c false <->
      (Z.of_nat (String.length bytes) > content_max_bytes (worker_config jm))%Z).
Proof.
  intros Hpre Hpar Hc Hd Hpost.
  destruct (Z.gtb_spec (Z.of_nat (String.length bytes))
              (content_max_bytes (worker_config jm))) as [Hgt|Hle].
  - assert (Hgt' : (Z.of_nat (String.length bytes)
                    > content_max_bytes (worker_config jm))%Z) by lia.
    pose proof (compute_block_too_big lib jm c job_result bytes Hpre Hpar Hc
                  Hd Hgt' Hpost) as Hb.
    destruct (run_custom_error lib jm c _ Hb) as (_ & _ & Hr).
    split; split; auto; try lia.
    intros [Ht _]. destruct Hr as [Hf _]. congruence.
  - assert (Hb : out (compute_block lib jm c) = Ret job_result).
    { apply compute_block_Ret. repeat split; eauto. }
    destruct (run_success lib jm c _ Hb) as (_ & _ & Hr).
    split; split; auto; try lia.
    intros [Hf _]. destruct Hr as [Ht _]. congruence.
Qed.

(** X16. An exception of the serialiser is handled like any other.  With
    hooks that return and a job the parallel check lets pass, when
    [compute] returns a result that [orjson_dumps] cannot render, the size
    validation is never reached, the post-compute hook is still called, as
    the last call of the block, and the exception is the one [process]
    handles: [run] reports failure, and for an exception outside the
    [CustomError] hierarchy the job's key holds the rendering of the
    [UnexpectedError] that wraps it. *)
Theorem serialiser_failure_is_recorded lib jm c job_result err :
  pre_compute (job_runner jm) c = Ret tt ->
  out (parallel_check lib jm c) = Ret tt ->
  compute (job_runner jm) c = Ret job_result ->
  orjson_dumps lib (result_content job_result) = Raise err ->
  post_compute (job_runner jm) c = Ret tt ->
  out (compute_block lib jm c) = Raise err
  /\ calls (compute_block lib jm c)
     = CallPreCompute :: calls (parallel_check lib jm c)
       ++ [CallCompute; CallPostCompute]
  /\ store (run lib jm c) = store (handle_error lib jm err c)
  /\ reports lib jm c false
  /\ (is_plain_exception err = true ->
      store (run lib jm c) !! job_key jm
      = Some (error_entry lib jm (UnexpectedError lib (str err) err))).
Proof.
  intros Hpre Hpar Hc Hd Hpost.
  assert (Hb : out (compute_block lib jm c) = Raise err).
  { rewrite (compute_block_size_check lib jm c _ Hpre Hpar Hc Hpost).
    unfold size_check. rewrite Hd. reflexivity. }
  destruct (run_failure lib jm c err Hb) as (Hs & _ & Hr).
  split; [exact Hb|]. split; [|split; [exact Hs|split; [exact Hr|]]].
  - rewrite compute_block_calls_exact, Hpre.
    destruct (parallel_check_run lib jm c) as (_ & _ & _ & Hf & _).
    destruct (parallel_fresh jm c).
    + destruct (Hf eq_refl) as [e He]. congruence.
    + cbn. rewrite <- app_assoc. reflexivity.
  - intros Hplain. rewrite Hs.
    pose proof (handle_error_cases lib jm err c) as Hh.
    destruct err; try discriminate; cbn zeta in Hh; rewrite Hh;
      cbn [store]; apply lookup_insert_eq.
Qed.

(** The cache store [run] leaves is decided by how the compute block
    ends. *)
Lemma run_store_of_block lib jm c c' :
  out (compute_block lib jm c') = out (compute_block lib jm c) ->
  exists f : Cache -> Cache,
    store (run lib jm c) = f c /\ store (run lib jm c') = f c'
    /\ (f = (fun x => x) \/ exists e, f = (fun x => <[job_key jm := e]> x)).
Proof.
  intros H. rewrite !run_unfold. cbn [store].
  destruct (out (compute_block lib jm c)) as [r|err] eqn:Hb.
  - rewrite (process_success _ _ _ _ Hb), (process_success _ _ _ _ H).
    eexists (fun x => <[job_key jm := _]> x). cbn. eauto.
  - rewrite (process_failure _ _ _ _ Hb), (process_failure _ _ _ _ H).
    pose proof (handle_error_cases lib jm err c) as Hh.
    pose proof (handle_error_cases lib jm err c') as Hh'.
    destruct err; cbn zeta in Hh, Hh'; rewrite Hh, Hh'; cbn [store];
      try (eexists (fun x => <[job_key jm := _]> x); cbn; eauto; fail).
    exists (fun x => x). auto.
Qed.

(** X15. Running a job again is safe: when the compute block ends on the
    cache store the first run left as it ended on the first run (same
    result, or same exception), the second run leaves that store
    unchanged. *)
Theorem rerun_leaves_store_unchanged lib jm c :
  out (compute_block lib jm (store (run lib jm c)))
    = out (compute_block lib jm c) ->
  store (run lib jm (store (run lib jm c))) = store (run lib jm c).
Proof.
  intros H.
  destruct (run_store_of_block lib jm c _ H) as (f & Hc & -> & Hf).
  destruct Hf as [->|[e ->]]; [reflexivity|].
  rewrite Hc. apply insert_insert_eq.
Qed.

(** ** The further properties on the example jobs *)

Lemma compute_skipped_only_when_parallel_response_fresh_witness :
  pre_compute (job_runner parallel_job) cache_with_parallel = Ret tt
  /\ parallel_response_is_fresh parallel_job cache_with_parallel
  /\ count is_compute
       (calls (run example_lib parallel_job cache_with_parallel)) = 0%nat.
Proof.
  split; [reflexivity|].
  assert (Hf : parallel_response_is_fresh parallel_job cache_with_parallel).
  { exists example_parallel, parallel_entry, (1 # 1)%Q.
    repeat split; vm_compute; reflexivity. }
  split; [exact Hf|].
  apply (compute_skipped_only_when_parallel_response_fresh example_lib
           parallel_job cache_with_parallel eq_refl).
  exact Hf.
Defined.

Lemma custom_error_keeps_code_and_status_witness :
  out (compute_block example_lib domain_error_job ∅)
    = Raise (Custom domain_error)
  /\ exists entry,
       store (run example_lib domain_error_job ∅) !! job_key domain_error_job
         = Some entry
       /\ store (run example_lib domain_error_job ∅)
          = <[job_key domain_error_job := entry]> ∅
       /\ error_code entry = Some "SplitNamesFromStreamingError"
       /\ http_status entry = 501
       /\ content entry = as_response example_lib domain_error
       /\ details entry = Some (as_response_with_cause example_lib domain_error)
       /\ progress entry = None
       /\ out (run example_lib domain_error_job ∅) = Ret false.
Proof.
  split; [reflexivity|].
  destruct (custom_error_keeps_code_and_status example_lib domain_error_job ∅
              domain_error eq_refl)
    as (entry & Hread & Hs & Hcode & Hst & Hc & Hd & Hp & Hr).
  exists entry. repeat (split; [assumption|]).
  exact (reports_returns _ _ _ _ Hr eq_refl).
Defined.

Lemma plain_exception_is_wrapped_as_unexpected_witness :
  out (compute_block example_lib unexpected_error_job ∅)
    = Raise (DoesNotExist "no such document")
  /\ error_code
       <$> (store (run example_lib unexpected_error_job ∅)
              !! job_key unexpected_error_job)
     = Some (Some "UnexpectedError")
  /\ out (run example_lib unexpected_error_job ∅) = Ret false.
Proof.
  split; [reflexivity|].
  destruct (plain_exception_is_wrapped_as_unexpected example_lib
              unexpected_error_job ∅ (DoesNotExist "no such document")
              eq_refl eq_refl)
    as (_ & Hread & _ & _ & _ & Hr).
  rewrite Hread. split; [reflexivity|].
  exact (reports_returns _ _ _ _ Hr eq_refl).
Defined.

Lemma post_compute_failure_replaces_outcome_witness :
  compute (job_runner failing_post_job) ∅ = Ret small_result
  /\ post_compute (job_runner failing_post_job) ∅
     = Raise (OtherException "disk full")
  /\ out (compute_block example_lib failing_post_job ∅)
     = Raise (OtherException "disk full")
  /\ out (run example_lib failing_post_job ∅) = Ret false.
Proof.
  split; [reflexivity|]. split; [reflexivity|].
  destruct (post_compute_failure_replaces_outcome example_lib failing_post_job
              ∅ (OtherException "disk full") eq_refl)
    as (Hb & Hr & _).
  split; [exact Hb|].
  exact (reports_returns _ _ _ _ Hr eq_refl).
Defined.

Lemma pre_compute_failure_skips_compute_witness :
  pre_compute (job_runner failing_pre_job) ∅
    = Raise (OtherException "no space left")
  /\ calls (compute_block example_lib failing_pre_job ∅)
     = [CallPreCompute; CallPostCompute]
  /\ count is_compute (calls (run example_lib failing_pre_job ∅)) = 0%nat.
Proof.
  split; [reflexivity|].
  destruct (pre_compute_failure_skips_compute example_lib failing_pre_job ∅
              (OtherException "no space left") eq_refl)
    as (Hc & Hn & _).
  split; [exact Hc|exact Hn].
Defined.

Lemma run_true_only_after_ok_entry_witness :
  out (run example_lib small_job ∅) = Ret true
  /\ exists job_result,
       compute (job_runner small_job) ∅ = Ret job_result
       /\ store (run example_lib small_job ∅)
          = <[job_key small_job := ok_entry small_job job_result]> ∅
       /\ store (run example_lib small_job ∅) !! job_key small_job
          = Some (ok_entry small_job job_result)
       /\ (exists bytes,
             orjson_dumps example_lib (result_content job_result) = Ret bytes
             /\ (Z.of_nat (String.length bytes)
                 <= content_max_bytes (worker_config small_job))%Z)
       /\ pre_compute (job_runner small_job) ∅ = Ret tt
       /\ post_compute (job_runner small_job) ∅ = Ret tt.
Proof.
  assert (H : out (run example_lib small_job ∅) = Ret true)
    by (vm_compute; reflexivity).
  split; [exact H|].
  exact (run_true_only_after_ok_entry example_lib small_job ∅ H).
Defined.

Lemma success_short_circuits_parallel_job_witness :
  out (compute_block example_lib parallel_step_job ∅) = Ret small_result
  /\ parallel_response_is_fresh parallel_job
       (store (run example_lib parallel_step_job ∅))
  /\ count is_compute
       (calls (run example_lib parallel_job
                 (store (run example_lib parallel_step_job ∅)))) = 0%nat.
Proof.
  split; [reflexivity|].
  destruct (success_short_circuits_parallel_job example_lib parallel_step_job
              parallel_job ∅ example_parallel small_result
              eq_refl eq_refl eq_refl eq_refl eq_refl)
    as [[_ Hfresh] Hcount].
  split; [apply Hfresh; reflexivity|].
  apply Hcount; reflexivity.
Defined.

Lemma size_limit_is_inclusive_witness :
  orjson_dumps example_lib (result_content limit_result)
    = Ret (quote +:+ "01234567" +:+ quote)
  /\ Z.of_nat (String.length (quote +:+ "01234567" +:+ quote))
     = content_max_bytes (worker_config limit_job)
  /\ out (run example_lib limit_job ∅) = Ret true
  /\ orjson_dumps example_lib (result_content big_result)
     = Ret (quote +:+ "0123456789abcdef" +:+ quote)
  /\ out (run example_lib big_job ∅) = Ret false.
Proof.
  split; [reflexivity|]. split; [reflexivity|].
  destruct (size_limit_is_inclusive example_lib limit_job ∅ limit_result
              (quote +:+ "01234567" +:+ quote)
              eq_refl eq_refl eq_refl eq_refl eq_refl) as [[_ Ht] _].
  split.
  { apply (reports_returns example_lib limit_job ∅ true);
      [apply Ht; vm_compute; discriminate|reflexivity]. }
  split; [reflexivity|].
  destruct (size_limit_is_inclusive example_lib big_job ∅ big_result
              (quote +:+ "0123456789abcdef" +:+ quote)
              eq_refl eq_refl eq_refl eq_refl eq_refl) as [_ [_ Hf]].
  apply (reports_returns example_lib big_job ∅ false);
    [apply Hf; reflexivity|reflexivity].
Defined.

Lemma serialiser_failure_is_recorded_witness :
  compute (job_runner unserialisable_job) ∅ = Ret unserialisable_result
  /\ orjson_dumps example_lib (result_content unserialisable_result)
     = Raise (OtherException "Integer exceeds 64-bit range")
  /\ calls (compute_block example_lib unserialisable_job ∅)
     = [CallPreCompute; CallCompute; CallPostCompute]
  /\ error_code
       <$> (store (run example_lib unserialisable_job ∅)
              !! job_key unserialisable_job)
     = Some (Some "UnexpectedError")
  /\ out (run example_lib unserialisable_job ∅) = Ret false.
Proof.
  split; [reflexivity|]. split; [reflexivity|].
  destruct (serialiser_failure_is_recorded example_lib unserialisable_job ∅
              unserialisable_result
              (OtherException "Integer exceeds 64-bit range")
              eq_refl eq_refl eq_refl eq_refl eq_refl)
    as (_ & Hc & _ & Hr & Hread).
  split; [exact Hc|]. split; [rewrite (Hread eq_refl); reflexivity|].
  exact (reports_returns _ _ _ _ Hr eq_refl).
Defined.

Lemma rerun_leaves_store_unchanged_witness :
  out (compute_block example_lib small_job
         (store (run example_lib small_job ∅)))
    = out (compute_block example_lib small_job ∅)
  /\ store (run example_lib small_job (store (run example_lib small_job ∅)))
     = store (run example_lib small_job ∅).
Proof.
  split; [reflexivity|].
  apply (rerun_leaves_store_unchanged example_lib small_job ∅).
  reflexivity.
Defined.

(** [setup] on a job submitted with another type than its runner's. *)
Example setup_rejects_mistyped_job :
  setup mistyped_job =
    Raise (OtherException
             "The submitted job type is config-info, but the job manager only processes dataset-info")
  /\ setup small_job = Ret tt.
Proof. split; reflexivity. Qed.
